(** * Chapa payment-gateway SDK: a shallow embedding of [chapa/api.py]

    The development follows the Python module top to bottom.  Python values
    are an inductive type, exceptions are an error type, and the methods of
    class [Chapa] run in a small state-and-exception monad whose state holds
    the client object (with its mutable [headers] dict) and the trace of HTTP
    requests handed to the [requests] library. *)

From Stdlib Require Import ZArith String Ascii List Bool Lia DecimalString.
From Stdlib Require Import Floats.SpecFloat.
Import ListNotations.
Open Scope string_scope.
Open Scope Z_scope.

(* ================================================================== *)
(** ** Exceptions and results *)

(** The source raises [ValueError] everywhere; [TypeError] comes from the
    interpreter ([dict.update(None)], [float(None)], [json.dumps] of an
    object), as do [OverflowError] and [RecursionError].
    [RequestException] stands for whatever the [requests] library raises
    while talking to the network.  Messages of interpreter-raised exceptions
    are the interpreter's, without the offending value; the message of a
    [RecursionError] says where the interpreter ran out of stack and is
    left out. *)
Inductive exn : Type :=
| ValueError (msg : string)
| TypeError (msg : string)
| OverflowError (msg : string)
| RecursionError
| RequestException (msg : string).

Inductive result (A : Type) : Type :=
| Ok (a : A)
| Err (e : exn).
Arguments Ok {A} a.
Arguments Err {A} e.

Definition is_value_error (e : exn) : bool :=
  match e with ValueError _ => true | _ => false end.

Definition is_type_error (e : exn) : bool :=
  match e with TypeError _ => true | _ => false end.

(* ================================================================== *)
(** ** Python values *)

(** A Python [str] is modelled by a Rocq [string], one character per code
    point, for code points below 256.  A [dict] is an association list in
    insertion order; its keys are values, compared the way Python compares
    keys (see [key_eqb] below).  [PyResponse attrs] is an instance of class
    [Response] whose [__dict__] is [attrs].  Floats are binary64 values in
    the representation of [SpecFloat].  Values have no identity of their
    own: two objects with the same contents are the same object, and so are
    two NaNs. *)
#[local] Unset Elimination Schemes.
Inductive pyval : Type :=
| PyNone
| PyBool (b : bool)
| PyInt (z : Z)
| PyFloat (f : spec_float)
| PyStr (s : string)
| PyList (l : list pyval)
| PyDict (d : list (pyval * pyval))
| PyResponse (attrs : list (pyval * pyval)).
#[local] Set Elimination Schemes.

Definition dict : Type := list (pyval * pyval).

(** A text where a value is expected is the [str] with that text. *)
Coercion PyStr : string >-> pyval.

(** Induction on values, with the hypothesis for every element of a list
    and every value of a dict. *)
Section PyvalInduction.

Variable P : pyval -> Prop.
Hypothesis P_None : P PyNone.
Hypothesis P_Bool : forall b, P (PyBool b).
Hypothesis P_Int : forall z, P (PyInt z).
Hypothesis P_Float : forall f, P (PyFloat f).
Hypothesis P_Str : forall s, P (PyStr s).
Hypothesis P_List : forall l, Forall P l -> P (PyList l).
Hypothesis P_Dict :
  forall d, Forall (fun kv => P (snd kv)) d -> P (PyDict d).
Hypothesis P_Response :
  forall a, Forall (fun kv => P (snd kv)) a -> P (PyResponse a).

Fixpoint pyval_ind (v : pyval) : P v :=
  let fix elems (l : list pyval) : Forall P l :=
    match l with
    | [] => Forall_nil P
    | x :: r => Forall_cons x (pyval_ind x) (elems r)
    end in
  let fix items (d : list (pyval * pyval))
    : Forall (fun kv => P (snd kv)) d :=
    match d with
    | [] => Forall_nil _
    | kv :: r =>
        Forall_cons kv
          (match kv as p return P (snd p) with (_, x) => pyval_ind x end)
          (items r)
    end in
  match v with
  | PyNone => P_None
  | PyBool b => P_Bool b
  | PyInt z => P_Int z
  | PyFloat f => P_Float f
  | PyStr s => P_Str s
  | PyList l => P_List l (elems l)
  | PyDict d => P_Dict d (items d)
  | PyResponse a => P_Response a (items a)
  end.

End PyvalInduction.

(** The same, with the hypothesis for the keys of a dict too. *)
Section PyvalInductionKeys.

Variable P : pyval -> Prop.
Hypothesis P_None : P PyNone.
Hypothesis P_Bool : forall b, P (PyBool b).
Hypothesis P_Int : forall z, P (PyInt z).
Hypothesis P_Float : forall f, P (PyFloat f).
Hypothesis P_Str : forall s, P (PyStr s).
Hypothesis P_List : forall l, Forall P l -> P (PyList l).
Hypothesis P_Dict :
  forall d, Forall (fun kv => P (fst kv) /\ P (snd kv)) d -> P (PyDict d).
Hypothesis P_Response :
  forall a, Forall (fun kv => P (fst kv) /\ P (snd kv)) a -> P (PyResponse a).

Fixpoint pyval_ind_keys (v : pyval) : P v :=
  let fix elems (l : list pyval) : Forall P l :=
    match l with
    | [] => Forall_nil P
    | x :: r => Forall_cons x (pyval_ind_keys x) (elems r)
    end in
  let fix items (d : list (pyval * pyval))
    : Forall (fun kv => P (fst kv) /\ P (snd kv)) d :=
    match d with
    | [] => Forall_nil _
    | kv :: r =>
        Forall_cons kv
          (match kv as p return P (fst p) /\ P (snd p) with
           | (k, x) => conj (pyval_ind_keys k) (pyval_ind_keys x)
           end)
          (items r)
    end in
  match v with
  | PyNone => P_None
  | PyBool b => P_Bool b
  | PyInt z => P_Int z
  | PyFloat f => P_Float f
  | PyStr s => P_Str s
  | PyList l => P_List l (elems l)
  | PyDict d => P_Dict d (items d)
  | PyResponse a => P_Response a (items a)
  end.

End PyvalInductionKeys.

(** [isinstance(v, dict)] and [isinstance(v, int)] ([bool] is a subclass of
    [int]). *)
Definition isinstance_dict (v : pyval) : bool :=
  match v with PyDict _ => true | _ => false end.

Definition isinstance_int (v : pyval) : bool :=
  match v with PyInt _ | PyBool _ => true | _ => false end.

(** [v != None] *)
Definition is_not_None (v : pyval) : bool :=
  match v with PyNone => false | _ => true end.

(* ------------------------------------------------------------------ *)
(** *** Keys

    A dict finds a key by [hash] and [==].  Lists and dicts cannot be
    hashed.  [bool], [int] and [float] keys are equal when they are the same
    number ([True == 1 == 1.0]); every other key is equal to itself only. *)

(** [hash(v)] does not raise. *)
Definition hashable (v : pyval) : bool :=
  match v with
  | PyList _ | PyDict _ => false
  | _ => true
  end.

Definition float_same (x y : spec_float) : bool :=
  match x, y with
  | S754_zero s, S754_zero t => Bool.eqb s t
  | S754_infinity s, S754_infinity t => Bool.eqb s t
  | S754_nan, S754_nan => true
  | S754_finite s m e, S754_finite t n f =>
      Bool.eqb s t && Pos.eqb m n && Z.eqb e f
  | _, _ => false
  end.

(** Whether two values are the same value, part by part. *)
Fixpoint same_value (a b : pyval) : bool :=
  let fix elems (x y : list pyval) : bool :=
    match x, y with
    | [], [] => true
    | u :: x', v :: y' => same_value u v && elems x' y'
    | _, _ => false
    end in
  let fix items (x y : list (pyval * pyval)) : bool :=
    match x, y with
    | [], [] => true
    | (k, u) :: x', (l, v) :: y' =>
        same_value k l && same_value u v && items x' y'
    | _, _ => false
    end in
  match a, b with
  | PyNone, PyNone => true
  | PyBool x, PyBool y => Bool.eqb x y
  | PyInt x, PyInt y => Z.eqb x y
  | PyFloat x, PyFloat y => float_same x y
  | PyStr x, PyStr y => String.eqb x y
  | PyList x, PyList y => elems x y
  | PyDict x, PyDict y => items x y
  | PyResponse x, PyResponse y => items x y
  | _, _ => false
  end.

(** The integer a float is, if it is one. *)
Definition float_as_int (f : spec_float) : option Z :=
  match f with
  | S754_zero _ => Some 0
  | S754_finite s m e =>
      let sign := if s then -1 else 1 in
      if 0 <=? e then Some (sign * (Zpos m * 2 ^ e))
      else if Zpos m mod 2 ^ (- e) =? 0 then Some (sign * (Zpos m / 2 ^ (- e)))
      else None
  | _ => None
  end.

(** One value for every class of equal keys: a number that is an integer
    is that [int]. *)
Definition key_norm (k : pyval) : pyval :=
  match k with
  | PyBool b => PyInt (if b then 1 else 0)
  | PyFloat f =>
      match float_as_int f with
      | Some z => PyInt z
      | None => k
      end
  | _ => k
  end.

(** Whether two keys are the same key of a dict. *)
Definition key_eqb (a b : pyval) : bool :=
  same_value (key_norm a) (key_norm b).

(* ------------------------------------------------------------------ *)
(** *** Strings *)

Definition dquote : ascii := ascii_of_N 34.
Definition backslash : ascii := ascii_of_N 92.
Definition char_tab : ascii := ascii_of_N 9.
Definition char_lf : ascii := ascii_of_N 10.
Definition char_cr : ascii := ascii_of_N 13.

Definition str1 (c : ascii) : string := String c EmptyString.

Fixpoint str_contains_char (c : ascii) (s : string) : bool :=
  match s with
  | EmptyString => false
  | String a r => Ascii.eqb a c || str_contains_char c r
  end.

Fixpoint str_repeat (c : ascii) (n : nat) : string :=
  match n with
  | O => EmptyString
  | S k => String c (str_repeat c k)
  end.

Fixpoint str_join (sep : string) (l : list string) : string :=
  match l with
  | [] => EmptyString
  | [x] => x
  | x :: r => x ++ sep ++ str_join sep r
  end.

(** [str(z)] for an [int]. *)
Definition int_str (z : Z) : string := NilZero.string_of_int (Z.to_int z).

(** [c.isdigit()] for one character: below code point 256 these are the
    ASCII digits and the superscripts two, three and one (U+00B2, U+00B3,
    U+00B9). *)
Definition char_isdigit (c : ascii) : bool :=
  let n := N_of_ascii c in
  ((48 <=? n) && (n <=? 57) || (n =? 178) || (n =? 179) || (n =? 185))%N.

(** The ASCII digits alone: the characters [float()] reads as digits. *)
Definition char_isdecimal (c : ascii) : bool :=
  let n := N_of_ascii c in ((48 <=? n) && (n <=? 57))%N.

Fixpoint str_forall (p : ascii -> bool) (s : string) : bool :=
  match s with
  | EmptyString => true
  | String c r => p c && str_forall p r
  end.

(** [s.isdigit()]: every character is a digit and there is at least one. *)
Definition str_isdigit (s : string) : bool :=
  match s with
  | EmptyString => false
  | _ => str_forall char_isdigit s
  end.

(** [s.replace(c, '', 1)]: the first occurrence of the character removed. *)
Fixpoint str_remove_first (c : ascii) (s : string) : string :=
  match s with
  | EmptyString => EmptyString
  | String a r => if Ascii.eqb a c then r else String a (str_remove_first c r)
  end.

(** [c.isprintable()] below code point 256. *)
Definition char_isprintable (c : ascii) : bool :=
  let n := N_of_ascii c in
  ((32 <=? n) && (n <? 127) || (161 <=? n) && negb (n =? 173))%N.

Definition hex_digit (n : N) : ascii :=
  if (n <? 10)%N then ascii_of_N (48 + n) else ascii_of_N (87 + n).

Definition escape_char (q c : ascii) : string :=
  if Ascii.eqb c backslash || Ascii.eqb c q then String backslash (str1 c)
  else if Ascii.eqb c char_tab then String backslash "t"
  else if Ascii.eqb c char_lf then String backslash "n"
  else if Ascii.eqb c char_cr then String backslash "r"
  else if char_isprintable c then str1 c
  else String backslash
         (String "x" (String (hex_digit (N_of_ascii c / 16))
                             (str1 (hex_digit (N_of_ascii c mod 16))))).

Fixpoint escape (q : ascii) (s : string) : string :=
  match s with
  | EmptyString => EmptyString
  | String c r => escape_char q c ++ escape q r
  end.

(** [repr(s)] for a [str]: single quotes unless the text holds a single
    quote and no double quote. *)
Definition str_repr (s : string) : string :=
  let q := if str_contains_char "'" s && negb (str_contains_char dquote s)
           then dquote else "'"%char in
  String q (escape q s ++ str1 q).

(* ------------------------------------------------------------------ *)
(** *** [repr] of a float

    [repr(x)] is the shortest decimal numeral that reads back as [x]
    (nearest to [x] among the shortest), printed in exponent notation when
    the decimal point falls left of the fourth leading zero or right of the
    sixteenth digit.  A finite float [S754_finite s m e] is [m * 2^e] in
    canonical binary64 form: [2^52 <= m < 2^53], or [m < 2^52] and
    [e = -1074].  All comparisons are made on integers in units of
    [2^(e-2)], in which the float is [4m] and its rounding interval is
    [[lo, hi]]. *)

(** [10^j <= num/den] for positive [num] and [den]. *)
Definition pow10_le (j num den : Z) : bool :=
  if 0 <=? j then 10 ^ j * den <=? num else den <=? num * 10 ^ (- j).

(** The [k] with [10^(k-1) <= num/den < 10^k], searched around the estimate
    read off the binary exponent [l2]. *)
Definition decimal_exponent (l2 num den : Z) : Z :=
  let est := (l2 * 30103) / 100000 in
  fold_left (fun k j => if pow10_le (j - 1) num den then j else k)
            (map (fun i => est + i) [-2; -1; 0; 1; 2; 3]) (est - 2).

Fixpoint strip_trailing_zeros_rev (r : list ascii) : list ascii :=
  match r with
  | "0"%char :: t => strip_trailing_zeros_rev t
  | _ => r
  end.

Definition strip_trailing_zeros (s : string) : string :=
  string_of_list_ascii
    (rev (strip_trailing_zeros_rev (rev (list_ascii_of_string s)))).

(** The candidate with [n] significant digits, if one lies in the rounding
    interval: the digits and the position of the decimal point. *)
Definition digits_at (m e k : Z) (n : Z) : option (string * Z) :=
  let V := 4 * m in
  let HI := 4 * m + 2 in
  let LO := if (m =? 2 ^ 52) && (-1074 <? e) then 4 * m - 1 else 4 * m - 2 in
  let e2 := e - 2 in
  let num := (if 0 <=? e2 then 2 ^ e2 else 1) * (if 0 <=? n - k then 10 ^ (n - k) else 1) in
  let den := (if 0 <=? e2 then 1 else 2 ^ (- e2)) * (if 0 <=? n - k then 1 else 10 ^ (k - n)) in
  let inside c :=
    if Z.even m then (LO * num <=? c * den) && (c * den <=? HI * num)
    else (LO * num <? c * den) && (c * den <? HI * num) in
  let d0 := (V * num) / den in
  let d1 := d0 + 1 in
  let below := V * num - d0 * den in
  let above := d1 * den - V * num in
  let pick c :=
    let ds := int_str c in
    Some (strip_trailing_zeros ds, k - n + Z.of_nat (String.length ds)) in
  match inside d0, inside d1 with
  | true, true =>
      if below <? above then pick d0
      else if above <? below then pick d1
      else if Z.even d0 then pick d0 else pick d1
  | true, false => pick d0
  | false, true => pick d1
  | false, false => None
  end.

Definition shortest_digits (m e : Z) : string * Z :=
  let e2 := e - 2 in
  let k := decimal_exponent (Z.log2 m + e)
             (4 * m * (if 0 <=? e2 then 2 ^ e2 else 1))
             (if 0 <=? e2 then 1 else 2 ^ (- e2)) in
  let fix search (ns : list Z) : string * Z :=
    match ns with
    | [] => ("0", 1)
    | n :: r => match digits_at m e k n with
                | Some res => res
                | None => search r
                end
    end in
  search [1; 2; 3; 4; 5; 6; 7; 8; 9; 10; 11; 12; 13; 14; 15; 16; 17].

Definition str_take (n : nat) (s : string) : string := substring 0 n s.
Definition str_drop (n : nat) (s : string) : string :=
  substring n (String.length s - n) s.

(** The layout of [repr]: exponent notation when [decpt <= -4] or
    [decpt > 16], else fixed notation with at least one digit on each side
    of the point. *)
Definition format_float_short (ds : string) (decpt : Z) : string :=
  let nd := Z.of_nat (String.length ds) in
  if (decpt <=? -4) || (16 <? decpt) then
    let ex := decpt - 1 in
    let es := int_str (Z.abs ex) in
    str_take 1 ds
      ++ (if 1 <? nd then String "." (str_drop 1 ds) else "")
      ++ "e" ++ (if ex <? 0 then "-" else "+")
      ++ (if (String.length es <? 2)%nat then String "0" es else es)
  else if decpt <=? 0 then
    "0." ++ str_repeat "0" (Z.to_nat (- decpt)) ++ ds
  else if nd <=? decpt then
    ds ++ str_repeat "0" (Z.to_nat (decpt - nd)) ++ ".0"
  else
    str_take (Z.to_nat decpt) ds ++ String "." (str_drop (Z.to_nat decpt) ds).

Definition float_repr (f : spec_float) : string :=
  match f with
  | S754_nan => "nan"
  | S754_infinity s => if s then "-inf" else "inf"
  | S754_zero s => if s then "-0.0" else "0.0"
  | S754_finite s m e =>
      let '(ds, decpt) := shortest_digits (Zpos m) e in
      (if s then "-" else "") ++ format_float_short ds decpt
  end.

(** [f > 0] on floats. *)
Definition float_gt_zero (f : spec_float) : bool :=
  match f with
  | S754_infinity false | S754_finite false _ _ => true
  | _ => false
  end.

(* ------------------------------------------------------------------ *)
(** *** [repr] and [str] of a value *)

(** The default [repr] of an object names its class and its address; the
    address is left out.  This is the [repr] of a value the interpreter can
    print: its limits on the digits of an [int] and on nesting, which
    [json_dumps] below applies, are not applied here. *)
Fixpoint py_repr (v : pyval) : string :=
  match v with
  | PyNone => "None"
  | PyBool b => if b then "True" else "False"
  | PyInt z => int_str z
  | PyFloat f => float_repr f
  | PyStr s => str_repr s
  | PyList l => "[" ++ str_join ", " (map py_repr l) ++ "]"
  | PyDict d =>
      "{" ++ str_join ", "
               (map (fun kv => py_repr (fst kv) ++ ": " ++ py_repr (snd kv)) d)
          ++ "}"
  | PyResponse _ => "<chapa.api.Response object>"
  end.

Definition py_str (v : pyval) : string :=
  match v with
  | PyStr s => s
  | _ => py_repr v
  end.

Definition type_name (v : pyval) : string :=
  match v with
  | PyNone => "NoneType"
  | PyBool _ => "bool"
  | PyInt _ => "int"
  | PyFloat _ => "float"
  | PyStr _ => "str"
  | PyList _ => "list"
  | PyDict _ => "dict"
  | PyResponse _ => "Response"
  end.

(* ------------------------------------------------------------------ *)
(** *** Dicts *)

Fixpoint dict_get (d : dict) (k : pyval) : option pyval :=
  match d with
  | [] => None
  | (k', v) :: r => if key_eqb k' k then Some v else dict_get r k
  end.

(** [k in d] *)
Definition dict_has (d : dict) (k : pyval) : bool :=
  match dict_get d k with Some _ => true | None => false end.

(** [d[k] = v]: an existing key is kept, in its place, with the new value;
    a new key goes last. *)
Fixpoint dict_set (d : dict) (k : pyval) (v : pyval) : dict :=
  match d with
  | [] => [(k, v)]
  | (k', v') :: r =>
      if key_eqb k' k then (k', v) :: r else (k', v') :: dict_set r k v
  end.

(** [d.update(o)] for a dict [o]. *)
Definition dict_merge (d o : dict) : dict :=
  fold_left (fun acc kv => dict_set acc (fst kv) (snd kv)) o d.

(** What iterating a value yields, for the values that can be iterated. *)
Definition py_iter (v : pyval) : option (list pyval) :=
  match v with
  | PyList l => Some l
  | PyStr s => Some (map (fun c => PyStr (str1 c)) (list_ascii_of_string s))
  | PyDict d => Some (map fst d)
  | _ => None
  end.

(** [d.update(items)] for a sequence that is not a dict: every element must
    itself be a sequence of length two, key then value, and the key must be
    hashable.  The elements before a bad one have been merged when the
    exception is raised. *)
Fixpoint dict_update_pairs (d : dict) (items : list pyval) (i : Z)
  : dict * result unit :=
  match items with
  | [] => (d, Ok tt)
  | item :: rest =>
      match py_iter item with
      | None =>
          (d, Err (TypeError ("cannot convert dictionary update sequence element #"
                                ++ int_str i ++ " to a sequence")))
      | Some [k; v] =>
          if hashable k then dict_update_pairs (dict_set d k v) rest (i + 1)
          else (d, Err (TypeError ("unhashable type: '" ++ type_name k ++ "'")))
      | Some elems =>
          (d, Err (ValueError ("dictionary update sequence element #"
                                 ++ int_str i ++ " has length "
                                 ++ int_str (Z.of_nat (List.length elems))
                                 ++ "; 2 is required")))
      end
  end.

(** [d.update(other)]: the dict after the call, and whether it raised. *)
Definition dict_update (d : dict) (other : pyval) : dict * result unit :=
  match other with
  | PyDict o => (dict_merge d o, Ok tt)
  | PyList l => dict_update_pairs d l 0
  | PyStr s =>
      dict_update_pairs d (map (fun c => PyStr (str1 c)) (list_ascii_of_string s)) 0
  | _ => (d, Err (TypeError ("'" ++ type_name other ++ "' object is not iterable")))
  end.

(* ------------------------------------------------------------------ *)
(** *** [float(v) > 0] *)

(** The digits of a plain decimal numeral: the integer they spell and how
    many of them follow the point.  [None] when the text has a character that
    is not an ASCII digit, or a second point. *)
Fixpoint read_decimal (s : string) (seen_point : bool) (acc : Z) (frac : Z)
  : option (Z * Z) :=
  match s with
  | EmptyString => Some (acc, frac)
  | String c r =>
      if Ascii.eqb c "." then
        if seen_point then None else read_decimal r true acc frac
      else if char_isdecimal c then
        read_decimal r seen_point
          (10 * acc + Z.of_N (N_of_ascii c - 48))
          (if seen_point then frac + 1 else frac)
      else None
  end.

(** [float(v) > 0].  For a [str] this covers the numerals that get past the
    [isdigit] test in [initialize]: digits with at most one point, of which
    [float] accepts those made of ASCII digits.  The numeral [n / 10^k]
    rounds to a positive float exactly when it exceeds [2^-1075], half the
    smallest positive float. *)
Definition float_gt_zero_of (v : pyval) : result bool :=
  match v with
  | PyFloat f => Ok (float_gt_zero f)
  | PyBool b => Ok b
  | PyInt z =>
      if Z.abs z <? 2 ^ 1024 - 2 ^ 970 then Ok (0 <? z)
      else Err (OverflowError "int too large to convert to float")
  | PyStr s =>
      match (if str_isdigit (str_remove_first "." s)
             then read_decimal s false 0 0 else None) with
      | Some (n, k) => Ok (10 ^ k <? n * 2 ^ 1075)
      | None => Err (ValueError ("could not convert string to float: " ++ str_repr s))
      end
  | _ => Err (TypeError ("float() argument must be a string or a real number, not '"
                           ++ type_name v ++ "'"))
  end.

(* ================================================================== *)
(** ** Regular expressions: [re.match]

    The constructs the source's pattern needs, with Brzozowski derivatives.
    [re.match] anchors the pattern at the start of the text only: it succeeds
    when some prefix of the text is in the pattern's language. *)

Inductive regex : Type :=
| Empty                       (* matches nothing *)
| Eps                         (* the empty text *)
| Lit (c : ascii)             (* the character [c] *)
| NotLit (c : ascii)          (* [[^c]]: any character but [c] *)
| Cat (r1 r2 : regex)
| Alt (r1 r2 : regex)
| Star (r : regex).

(** [r+] *)
Definition Plus (r : regex) : regex := Cat r (Star r).

Fixpoint nullable (r : regex) : bool :=
  match r with
  | Empty => false
  | Eps => true
  | Lit _ => false
  | NotLit _ => false
  | Cat r1 r2 => nullable r1 && nullable r2
  | Alt r1 r2 => nullable r1 || nullable r2
  | Star _ => true
  end.

Fixpoint deriv (a : ascii) (r : regex) : regex :=
  match r with
  | Empty => Empty
  | Eps => Empty
  | Lit c => if Ascii.eqb a c then Eps else Empty
  | NotLit c => if Ascii.eqb a c then Empty else Eps
  | Cat r1 r2 =>
      if nullable r1 then Alt (Cat (deriv a r1) r2) (deriv a r2)
      else Cat (deriv a r1) r2
  | Alt r1 r2 => Alt (deriv a r1) (deriv a r2)
  | Star r1 => Cat (deriv a r1) (Star r1)
  end.

(** Whether some prefix of the text matches. *)
Fixpoint prefix_match (r : regex) (s : list ascii) : bool :=
  nullable r ||
  match s with
  | [] => false
  | a :: t => prefix_match (deriv a r) t
  end.

(** [re.match(r, s)] as a truth value. *)
Definition re_match (r : regex) (s : string) : bool :=
  prefix_match r (list_ascii_of_string s).

(** The pattern of [initialize]: one or more non-at characters, an at sign,
    one or more non-at characters, a point, one or more non-at characters. *)
Definition email_pattern : regex :=
  Cat (Plus (NotLit "@"))
      (Cat (Lit "@")
           (Cat (Plus (NotLit "@"))
                (Cat (Lit ".") (Plus (NotLit "@"))))).

(* ================================================================== *)
(** ** The interpreter's limits

    Two limits of the interpreter decide whether a value gets through
    [json.dumps] and [json.loads]: the longest [int] it converts to and from
    text, and the room left on its stack where [convert_response] is called.
    The room is given as the depths that each part of the round trip can
    still reach; a list or dict at the top of a value is at depth one. *)

Class Interpreter : Type := {
  (** [sys.get_int_max_str_digits()]: zero for no limit, otherwise at least
      640, as [sys.set_int_max_str_digits] demands. *)
  int_max_str_digits : Z;
  (** How deep a list or dict can be for [json.dumps] to enter it. *)
  dumps_depth : nat;
  (** How deep an object that is not JSON can be for [json.dumps] to call
      [JSONEncoder.default] on it. *)
  default_depth : nat;
  (** How deep a list or dict can be for [json.loads] to enter it. *)
  loads_depth : nat;
  (** How deep a dict can be for [json.loads] to call [object_hook] on it. *)
  hook_depth : nat
}.

(** CPython with its defaults, near the top of a program: ints of at most
    4300 digits and a recursion limit of 1000. *)
#[global] Instance cpython_defaults : Interpreter := {|
  int_max_str_digits := 4300;
  dumps_depth := 990;
  default_depth := 988;
  loads_depth := 990;
  hook_depth := 987
|}.

(** How many digits an [int] has. *)
Definition int_digits (z : Z) : Z :=
  Z.of_nat (String.length (int_str (Z.abs z))).

(** Whether [str(z)] and [int(str(z))] raise. *)
Definition int_too_long {py : Interpreter} (z : Z) : bool :=
  (0 <? int_max_str_digits) && (int_max_str_digits <? int_digits z).

(** What [str(z)] raises then. *)
Definition int_to_str_error {py : Interpreter} : exn :=
  ValueError ("Exceeds the limit (" ++ int_str int_max_str_digits
                ++ " digits) for integer string conversion; "
                ++ "use sys.set_int_max_str_digits() to increase the limit").

(** What [int(s)] raises for the text of [z]. *)
Definition int_of_str_error {py : Interpreter} (z : Z) : exn :=
  ValueError ("Exceeds the limit (" ++ int_str int_max_str_digits
                ++ " digits) for integer string conversion: value has "
                ++ int_str (int_digits z) ++ " digits; "
                ++ "use sys.set_int_max_str_digits() to increase the limit").

(* ================================================================== *)
(** ** The JSON round trip of [convert_response]

    [json.loads(json.dumps(v), object_hook=hook)] on values.  The text that
    [json.dumps] writes is kept as the value it spells: a value of scalars,
    lists and dicts with [str] keys.  A [str] is spelled with escapes and
    read back as it was; a [float] is spelled by its [repr], or as [NaN],
    [Infinity] and [-Infinity], and read back as it was. *)

Definition not_serializable : exn :=
  TypeError "Object of type Response is not JSON serializable".

Section MapResult.

Variables A B : Type.
Variable f : A -> result B.

(** [f] over a list, stopping at the first exception. *)
Fixpoint map_result (l : list A) : result (list B) :=
  match l with
  | [] => Ok []
  | x :: r =>
      match f x, map_result r with
      | Ok y, Ok r' => Ok (y :: r')
      | Err e, _ => Err e
      | _, Err e => Err e
      end
  end.

End MapResult.
Arguments map_result {A B} f l.

(** How [json.dumps] spells a [float]. *)
Definition json_float (f : spec_float) : string :=
  match f with
  | S754_nan => "NaN"
  | S754_infinity s => if s then "-Infinity" else "Infinity"
  | _ => float_repr f
  end.

(** The key that [json.dumps] writes for a key of a dict. *)
Definition json_key {py : Interpreter} (k : pyval) : result string :=
  match k with
  | PyStr s => Ok s
  | PyFloat f => Ok (json_float f)
  | PyBool b => Ok (if b then "true" else "false")
  | PyNone => Ok "null"
  | PyInt z => if int_too_long z then Err int_to_str_error else Ok (int_str z)
  | _ => Err (TypeError ("keys must be str, int, float, bool or None, not "
                           ++ type_name k))
  end.

(** [json.dumps(v)] for a value with [level] lists and dicts around it: the
    document, or the first exception on the way through the value, left to
    right.  In a dict the key of an item is written before its value. *)
Fixpoint json_dumps {py : Interpreter} (level : nat) (v : pyval)
  : result pyval :=
  match v with
  | PyInt z => if int_too_long z then Err int_to_str_error else Ok v
  | PyList l =>
      if (level <? dumps_depth)%nat then
        match map_result (json_dumps (S level)) l with
        | Ok l' => Ok (PyList l')
        | Err e => Err e
        end
      else Err RecursionError
  | PyDict d =>
      if (level <? dumps_depth)%nat then
        match map_result
                (fun kv =>
                   match json_key (fst kv) with
                   | Ok k =>
                       match json_dumps (S level) (snd kv) with
                       | Ok x => Ok (PyStr k, x)
                       | Err e => Err e
                       end
                   | Err e => Err e
                   end) d with
        | Ok d' => Ok (PyDict d')
        | Err e => Err e
        end
      else Err RecursionError
  | PyResponse _ =>
      if (level <? default_depth)%nat then Err not_serializable
      else Err RecursionError
  | _ => Ok v
  end.

(** [json.loads(text, object_hook=hook)] for the part [v] of a document
    with [level] lists and dicts around it.  A dict is built from its items,
    a later item replacing the value of an earlier one with the same key, and
    handed to [hook], innermost first. *)
Fixpoint json_loads {py : Interpreter} (hook : dict -> pyval) (level : nat)
    (v : pyval) : result pyval :=
  match v with
  | PyInt z => if int_too_long z then Err (int_of_str_error z) else Ok v
  | PyList l =>
      if (level <? loads_depth)%nat then
        match map_result (json_loads hook (S level)) l with
        | Ok l' => Ok (PyList l')
        | Err e => Err e
        end
      else Err RecursionError
  | PyDict d =>
      if (level <? loads_depth)%nat then
        match map_result
                (fun kv =>
                   match json_loads hook (S level) (snd kv) with
                   | Ok x => Ok (fst kv, x)
                   | Err e => Err e
                   end) d with
        | Ok d' =>
            if (level <? hook_depth)%nat then Ok (hook (dict_merge [] d'))
            else Err RecursionError
        | Err e => Err e
        end
      else Err RecursionError
  | _ => Ok v
  end.

Definition json_loads_dumps {py : Interpreter} (hook : dict -> pyval)
    (v : pyval) : result pyval :=
  match json_dumps 0 v with
  | Ok text => json_loads hook 0 text
  | Err e => Err e
  end.

(** Class [Response]: [__init__] copies the given dict into the instance's
    [__dict__]. *)
Definition Response (dict1 : dict) : pyval :=
  PyResponse (dict_merge [] dict1).

(* ================================================================== *)
(** ** The client object, the network, and the monad of its methods *)

(** One call of [requests.post] or [requests.put]. *)
Record request : Type := {
  req_method : string;
  req_url : string;
  req_data : pyval;
  req_headers : dict
}.

(** An instance of class [Chapa]. *)
Record Chapa : Type := {
  _key : string;
  base_url : string;
  api_version : string;
  response_format : string;
  headers : dict
}.

(** The state a method runs in: the instance it is called on and the
    requests made so far, oldest first. *)
Record world : Type := {
  client : Chapa;
  sent : list request
}.

Definition M (A : Type) : Type := world -> result A * world.

Definition ret {A : Type} (a : A) : M A := fun w => (Ok a, w).

Definition raise {A : Type} (e : exn) : M A := fun w => (Err e, w).

Definition bind {A B : Type} (m : M A) (k : A -> M B) : M B :=
  fun w =>
    match m w with
    | (Ok a, w') => k a w'
    | (Err e, w') => (Err e, w')
    end.

Definition lift {A : Type} (r : result A) : M A := fun w => (r, w).

Notation "x <- m ;; k" := (bind m (fun x => k))
  (at level 61, m at next level, right associativity).
Notation "m ;;; k" := (bind m (fun _ => k))
  (at level 61, right associativity).

(** [self] *)
Definition get_self : M Chapa := fun w => (Ok (client w), w).

Definition with_headers (c : Chapa) (h : dict) : Chapa :=
  {| _key := _key c; base_url := base_url c; api_version := api_version c;
     response_format := response_format c; headers := h |}.

(** [self.headers.update(other)]: the dict is changed in place, also when the
    call ends in an exception. *)
Definition headers_update (other : pyval) : M unit :=
  fun w =>
    let '(h, r) := dict_update (headers (client w)) other in
    (r, {| client := with_headers (client w) h; sent := sent w |}).

Definition allowed_methods : list string := ["post"; "put"].

Definition default_base_ur : string := "https://api.chapa.co".
Definition default_api_version : string := "v1".
Definition default_response_format : string := "json".

(** [Chapa.__init__] *)
Definition __init__ (secret base_ur api_version response_format : string)
  : result Chapa :=
  if existsb (String.eqb response_format) ["json"; "obj"] then
    Ok {| _key := secret;
          base_url := base_ur;
          api_version := api_version;
          response_format := response_format;
          headers := [(PyStr "Authorization", PyStr ("Bearer " ++ secret))] |}
  else Err (ValueError "response_format must be 'json' or 'obj'").

(** [Chapa.convert_response] *)
Definition convert_response {py : Interpreter} (response : pyval)
  : result pyval :=
  if negb (isinstance_dict response) then Ok response
  else json_loads_dumps Response response.

(** [amount < 0] for an [int] or [bool]. *)
Definition int_lt_zero (v : pyval) : bool :=
  match v with
  | PyInt z => z <? 0
  | _ => false
  end.

(** The amount check of [initialize] (the [if]/[elif] on [amount]). *)
Definition validate_amount (amount : pyval) : result unit :=
  if negb (isinstance_int amount) then
    if str_isdigit (str_remove_first "." (py_str amount)) then
      match float_gt_zero_of amount with
      | Ok true => Ok tt
      | Ok false => Err (ValueError "invalid amount")
      | Err e => Err e
      end
    else Err (ValueError "invalid amount")
  else
    if int_lt_zero amount then Err (ValueError "invalid amount") else Ok tt.

(** The [customization[...]] entries of the form body. *)
Definition add_customization (data : dict) (customization : dict) : dict :=
  let data :=
    match dict_get customization "title" with
    | Some v => dict_set data "customization[title]" v
    | None => data
    end in
  let data :=
    match dict_get customization "description" with
    | Some v => dict_set data "customization[description]" v
    | None => data
    end in
  match dict_get customization "logo" with
  | Some v => dict_set data "customization[logo]" v
  | None => data
  end.

Section Methods.

Context {py : Interpreter}.

(** What the gateway answers to a request, given the requests that came
    before: the decoded JSON body, or the exception that [requests] or
    [response.json()] raises. *)
Variable server : list request -> request -> result pyval.

(** [func(url, data=data, headers=self.headers)] followed by
    [response.json()]. *)
Definition http (rq : request) : M pyval :=
  fun w =>
    (server (sent w) rq, {| client := client w; sent := sent w ++ [rq] |}).

(** [Chapa.send_request] *)
Definition send_request (url method : string) (data params hdrs : pyval)
  : M pyval :=
  if negb (existsb (String.eqb method) allowed_methods) then
    raise (ValueError ("Please provide a valid method, allowed methods are: "
                         ++ py_str (PyList (map PyStr allowed_methods))))
  else if is_not_None params && negb (isinstance_dict params) then
    raise (ValueError "params must be a dict")
  else if is_not_None data && negb (isinstance_dict data) then
    raise (ValueError "data must be a dict")
  else if is_not_None hdrs && negb (isinstance_dict data) then
    raise (ValueError "headers must be a dict")
  else
    headers_update hdrs ;;;
    self <- get_self ;;
    http {| req_method := method; req_url := url; req_data := data;
            req_headers := headers self |}.

(** [Chapa._construct_request] *)
Definition _construct_request (url method : string) (data params hdrs : pyval)
  : M pyval :=
  res <- send_request url method data params hdrs ;;
  self <- get_self ;;
  if String.eqb (response_format self) "obj" && isinstance_dict res then
    lift (convert_response res)
  else ret res.

(** [Chapa.initialize].  [callback_url] and [customization] are [None] or
    a value of their documented type. *)
Definition initialize (email : string) (amount : pyval)
    (first_name last_name tx_ref currency : string)
    (callback_url : option string) (customization : option dict)
    (hdrs : pyval) : M pyval :=
  let data := [(PyStr "first_name", PyStr first_name);
               (PyStr "last_name", PyStr last_name);
               (PyStr "tx_ref", PyStr tx_ref);
               (PyStr "currency", PyStr currency)] in
  lift (validate_amount amount) ;;;
  let data := dict_set data "amount" amount in
  if negb (re_match email_pattern email) then
    raise (ValueError "invalid email")
  else
    let data := dict_set data "email" (PyStr email) in
    let data :=
      match callback_url with
      | Some u => if String.eqb u "" then data
                  else dict_set data "callback_url" (PyStr u)
      | None => data
      end in
    let data :=
      match customization with
      | Some c => match c with
                  | [] => data
                  | _ => add_customization data c
                  end
      | None => data
      end in
    self <- get_self ;;
    _construct_request
      (base_url self ++ "/" ++ api_version self ++ "/transaction/initialize")
      "post" (PyDict data) PyNone hdrs.

(** [Chapa.verify] *)
Definition verify (transaction : string) (hdrs : pyval) : M pyval :=
  self <- get_self ;;
  _construct_request
    (base_url self ++ "/" ++ api_version self ++ "/transaction/verify/"
       ++ transaction)
    "get" PyNone PyNone hdrs.

End Methods.

Definition default_currency : string := "ETB".

(* ================================================================== *)
(** ** Names of the specification *)

(** The message of the method check: the f-string with the allow-list. *)
Definition invalid_method_message : string :=
  "Please provide a valid method, allowed methods are: ['post', 'put']".

(** The specification's error names are [ValueError]s of the source, told
    apart by their messages. *)
Definition InvalidMethodError : exn := ValueError invalid_method_message.
Definition InvalidAmountError : exn := ValueError "invalid amount".
Definition InvalidEmailError : exn := ValueError "invalid email".

Definition InvalidArgumentError (e : exn) : Prop :=
  e = ValueError "params must be a dict" \/
  e = ValueError "data must be a dict" \/
  e = ValueError "headers must be a dict".

(** What [dict.update(None)] raises. *)
Definition none_not_iterable : exn :=
  TypeError "'NoneType' object is not iterable".

(** A client as [Chapa(secret)] builds it, every other argument defaulted. *)
Definition new_default (secret : string) : result Chapa :=
  __init__ secret default_base_ur default_api_version default_response_format.

(** The state right after construction: nothing sent yet. *)
Definition empty_world (c : Chapa) : world := {| client := c; sent := [] |}.

(** A gateway that answers every request with the same success document. *)
Definition constant_server (v : pyval) : list request -> request -> result pyval :=
  fun _ _ => Ok v.

Definition sample_answer : pyval :=
  PyDict [(PyStr "status", PyStr "success");
          (PyStr "data", PyDict [(PyStr "checkout_url", PyStr "https://checkout.chapa.co/x")])].

(** The form body [initialize] builds once both checks have passed. *)
Definition initialize_body (email : string) (amount : pyval)
    (first_name last_name tx_ref currency : string)
    (callback_url : option string) (customization : option dict) : dict :=
  let data := [(PyStr "first_name", PyStr first_name);
               (PyStr "last_name", PyStr last_name);
               (PyStr "tx_ref", PyStr tx_ref);
               (PyStr "currency", PyStr currency);
               (PyStr "amount", amount);
               (PyStr "email", PyStr email)] in
  let data :=
    match callback_url with
    | Some u => if String.eqb u "" then data
                else dict_set data "callback_url" (PyStr u)
    | None => data
    end in
  match customization with
  | Some ((_ :: _) as c) => add_customization data c
  | _ => data
  end.

(* ================================================================== *)
(** ** Sequences of calls on one client *)

Inductive call : Type :=
| Call_send_request (url method : string) (data params hdrs : pyval)
| Call_initialize (email : string) (amount : pyval)
    (first_name last_name tx_ref currency : string)
    (callback_url : option string) (customization : option dict) (hdrs : pyval)
| Call_verify (transaction : string) (hdrs : pyval).

(** The [headers] argument of a call. *)
Definition call_headers (c : call) : pyval :=
  match c with
  | Call_send_request _ _ _ _ hdrs => hdrs
  | Call_initialize _ _ _ _ _ _ _ _ hdrs => hdrs
  | Call_verify _ hdrs => hdrs
  end.

Section Calls.

Context {py : Interpreter}.
Variable server : list request -> request -> result pyval.

(** The state after a call, whether it returned or raised. *)
Definition run_call (c : call) (w : world) : world :=
  match c with
  | Call_send_request url method data params hdrs =>
      snd (send_request server url method data params hdrs w)
  | Call_initialize email amount first_name last_name tx_ref currency
      callback_url customization hdrs =>
      snd (initialize server email amount first_name last_name tx_ref currency
             callback_url customization hdrs w)
  | Call_verify transaction hdrs =>
      snd (verify server transaction hdrs w)
  end.

Definition run_calls (cs : list call) (w : world) : world :=
  fold_left (fun w c => run_call c w) cs w.

End Calls.

(** Whether [d.update(other)] can assign to key [k]: [other] is a dict with
    that key, or a sequence with a pair for it. *)
Definition sets_key (k : string) (other : pyval) : bool :=
  let pair_for item :=
    match py_iter item with
    | Some [PyStr k'; _] => String.eqb k' k
    | _ => false
    end in
  match other with
  | PyDict o => dict_has o k
  | PyList l => existsb pair_for l
  | _ => false
  end.

(** The client after a call is the client before it with, at most, the
    [headers] argument merged into its headers. *)
Definition headers_step (hdrs : pyval) (w w' : world) : Prop :=
  client w' = client w \/
  client w' = with_headers (client w) (fst (dict_update (headers (client w)) hdrs)).

(** The header every client is built with. *)
Definition authorization_of (secret : string) : pyval :=
  PyStr ("Bearer " ++ secret).

(* ================================================================== *)
(** ** The language of a regular expression *)

Inductive lang : regex -> list ascii -> Prop :=
| lang_Eps : lang Eps []
| lang_Lit c : lang (Lit c) [c]
| lang_NotLit c a : a <> c -> lang (NotLit c) [a]
| lang_Cat r1 r2 s1 s2 :
    lang r1 s1 -> lang r2 s2 -> lang (Cat r1 r2) (s1 ++ s2)
| lang_AltL r1 r2 s : lang r1 s -> lang (Alt r1 r2) s
| lang_AltR r1 r2 s : lang r2 s -> lang (Alt r1 r2) s
| lang_Star_nil r : lang (Star r) []
| lang_Star_app r s1 s2 :
    lang r s1 -> lang (Star r) s2 -> lang (Star r) (s1 ++ s2).

(** No at sign in the text. *)
Definition no_at (s : string) : Prop := str_contains_char "@" s = false.

(** The shape the email pattern asks of the start of the text: a local part
    without at signs, an at sign, and a domain that has a point with text
    free of at signs on both sides.  What follows is not looked at. *)
Definition matches_email_pattern (email : string) : Prop :=
  exists local dom tld rest : string,
    email = local ++ "@" ++ dom ++ "." ++ tld ++ rest /\
    local <> "" /\ no_at local /\
    dom <> "" /\ no_at dom /\
    tld <> "" /\ no_at tld.

(* ================================================================== *)
(** ** Plain decimal numerals *)



(** The float [12.5]: [7036874417766400 * 2^-49]. *)
Definition float_12_5 : spec_float := S754_finite false 7036874417766400 (-49).

(* ================================================================== *)
(** ** Decoded JSON and object graphs *)

(** Whether [k] is one of the keys, as a dict compares keys. *)
Fixpoint key_mem (k : pyval) (l : list pyval) : bool :=
  match l with
  | [] => false
  | x :: r => key_eqb x k || key_mem k r
  end.

(** No key twice. *)
Fixpoint keys_distinct (l : list pyval) : bool :=
  match l with
  | [] => true
  | x :: r => negb (key_mem x r) && keys_distinct r
  end.

Definition is_str (v : pyval) : bool :=
  match v with PyStr _ => true | _ => false end.

(** The shape of decoded JSON: no objects, no int longer than the
    interpreter reads, and every dict with [str] keys, no key twice. *)
Fixpoint json_shape {py : Interpreter} (v : pyval) : bool :=
  match v with
  | PyInt z => negb (int_too_long z)
  | PyList l => forallb json_shape l
  | PyDict d =>
      forallb (fun kv => is_str (fst kv)) d
      && keys_distinct (map fst d)
      && forallb (fun kv => json_shape (snd kv)) d
  | PyResponse _ => false
  | _ => true
  end.

(** How many lists, dicts and objects are inside one another at the deepest
    place of a value. *)
Fixpoint nesting (v : pyval) : nat :=
  match v with
  | PyList l => S (list_max (map nesting l))
  | PyDict d => S (list_max (map (fun kv => nesting (snd kv)) d))
  | PyResponse a => S (list_max (map (fun kv => nesting (snd kv)) a))
  | _ => 0
  end.

(** The depth that every part of the round trip of [convert_response] has
    room for. *)
Definition json_depth {py : Interpreter} : nat :=
  Nat.min dumps_depth (Nat.min loads_depth hook_depth).

(** What [response.json()] can return and [convert_response] has room for:
    a value of the shape of decoded JSON, nested no deeper than the round
    trip can go. *)
Definition is_json {py : Interpreter} (v : pyval) : bool :=
  json_shape v && (nesting v <=? json_depth)%nat.

(** The object graph read back as plain mappings: every [Response] node
    replaced by the dict of its attributes. *)
Fixpoint to_mapping (v : pyval) : pyval :=
  match v with
  | PyList l => PyList (map to_mapping l)
  | PyDict d => PyDict (map (fun kv => (fst kv, to_mapping (snd kv))) d)
  | PyResponse a => PyDict (map (fun kv => (fst kv, to_mapping (snd kv))) a)
  | _ => v
  end.

(** No dict is left anywhere in the value: every mapping node is a
    [Response] object. *)
Fixpoint all_objects (v : pyval) : bool :=
  match v with
  | PyList l => forallb all_objects l
  | PyDict _ => false
  | PyResponse a => forallb (fun kv => all_objects (snd kv)) a
  | _ => true
  end.

(** The client [Chapa("sk_test_x")], and the same with
    [response_format="obj"]. *)
Definition sample_client : Chapa :=
  {| _key := "sk_test_x";
     base_url := default_base_ur;
     api_version := default_api_version;
     response_format := "json";
     headers := [(PyStr "Authorization", PyStr "Bearer sk_test_x")] |}.

Definition sample_object_client : Chapa :=
  {| _key := "sk_test_x";
     base_url := default_base_ur;
     api_version := default_api_version;
     response_format := "obj";
     headers := [(PyStr "Authorization", PyStr "Bearer sk_test_x")] |}.

(** What the round trip makes of a decoded JSON value: the same value with
    every dict turned into an object. *)
Definition adapted (v r : pyval) : Prop :=
  to_mapping r = v /\ all_objects r = true.

(** A document with a mapping inside a mapping and mappings inside a list. *)
Definition nested_answer : pyval :=
  PyDict [(PyStr "message", PyStr "Payment details");
          (PyStr "status", PyStr "success");
          (PyStr "data", PyDict [(PyStr "amount", PyFloat float_12_5);
                           (PyStr "charge", PyNone);
                           (PyStr "customization", PyDict [(PyStr "title", PyStr "T")])]);
          (PyStr "events", PyList [PyDict [(PyStr "id", PyInt 1); (PyStr "ok", PyBool true)];
                             PyStr "tail"])].

(* ================================================================== *)
(** ** Vocabulary for the further properties *)

(** What [_construct_request] hands back for an answer of the gateway, under
    the client's [response_format]. *)
Definition adapt_answer {py : Interpreter} (fmt : string)
    (answer : result pyval) : result pyval :=
  match answer with
  | Ok res =>
      if String.eqb fmt "obj" && isinstance_dict res
      then convert_response res else Ok res
  | Err e => Err e
  end.

(** A request as [send_request] lets it out: an allowed method, a dict for
    the body, and an [Authorization] header. *)
Definition request_in_order (rq : request) : bool :=
  existsb (String.eqb (req_method rq)) allowed_methods
  && isinstance_dict (req_data rq)
  && dict_has (req_headers rq) "Authorization".

(** The exceptions of the interpreter on the way through [json.dumps] and
    [json.loads]. *)
Definition json_error (e : exn) : bool :=
  is_type_error e || is_value_error e
  || match e with RecursionError => true | _ => false end.

(** Whether a [Response] object occurs anywhere in the value. *)
Fixpoint has_object (v : pyval) : bool :=
  match v with
  | PyList l => existsb has_object l
  | PyDict d => existsb (fun kv => has_object (snd kv)) d
  | PyResponse _ => true
  | _ => false
  end.

(** The entry of the form body of [initialize] under a key, read off the
    arguments. *)
Definition body_field (email : string) (amount : pyval)
    (first_name last_name tx_ref currency : string)
    (callback_url : option string) (customization : option dict)
    (k : string) : option pyval :=
  if String.eqb k "first_name" then Some (PyStr first_name)
  else if String.eqb k "last_name" then Some (PyStr last_name)
  else if String.eqb k "tx_ref" then Some (PyStr tx_ref)
  else if String.eqb k "currency" then Some (PyStr currency)
  else if String.eqb k "amount" then Some amount
  else if String.eqb k "email" then Some (PyStr email)
  else if String.eqb k "callback_url" then
    match callback_url with
    | Some u => if String.eqb u "" then None else Some (PyStr u)
    | None => None
    end
  else if String.eqb k "customization[title]" then
    match customization with Some c => dict_get c "title" | None => None end
  else if String.eqb k "customization[description]" then
    match customization with Some c => dict_get c "description" | None => None end
  else if String.eqb k "customization[logo]" then
    match customization with Some c => dict_get c "logo" | None => None end
  else None.

(** The items of a dict as a list of two-element lists, the other form
    [dict.update] takes. *)
Definition pair_lists (items : dict) : list pyval :=
  map (fun kv => PyList [fst kv; snd kv]) items.


(** A text of zeros, with or without points. *)
Definition char_zero_or_point (c : ascii) : bool :=
  Ascii.eqb c "0" || Ascii.eqb c ".".

(* ================================================================== *)
(** * Properties *)

(** ** Basic facts about the monad and the state *)

Lemma with_headers_same (c : Chapa) : with_headers c (headers c) = c.
Proof. destruct c; reflexivity. Qed.

Lemma world_eta (w : world) : {| client := client w; sent := sent w |} = w.
Proof. destruct w; reflexivity. Qed.

Lemma invalid_method_message_eq :
  "Please provide a valid method, allowed methods are: "
    ++ py_str (PyList (map PyStr allowed_methods)) = invalid_method_message.
Proof. reflexivity. Qed.

Lemma allowed_methods_spec (method : string) :
  existsb (String.eqb method) allowed_methods = true <->
  method = "post" \/ method = "put".
Proof.
  unfold allowed_methods; simpl.
  rewrite orb_false_r, orb_true_iff, !String.eqb_eq. tauto.
Qed.

(** [self.headers.update(None)] raises and leaves the state as it was. *)
Lemma headers_update_None (w : world) :
  headers_update PyNone w = (Err none_not_iterable, w).
Proof.
  unfold headers_update; simpl.
  rewrite with_headers_same, world_eta. reflexivity.
Qed.

(** [self.headers.update(o)] for a dict [o]. *)
Lemma headers_update_dict (o : dict) (w : world) :
  headers_update (PyDict o) w =
  (Ok tt, {| client := with_headers (client w) (dict_merge (headers (client w)) o);
             sent := sent w |}).
Proof. reflexivity. Qed.

Section SendRequest.

Context {py : Interpreter}.
Variable server : list request -> request -> result pyval.

(** A method outside the allow-list stops [send_request] at once. *)
Lemma send_request_bad_method url method data params hdrs w :
  existsb (String.eqb method) allowed_methods = false ->
  send_request server url method data params hdrs w = (Err InvalidMethodError, w).
Proof.
  intros H. unfold send_request. rewrite H. reflexivity.
Qed.

(** Past the four guards, [send_request] merges the headers and makes the
    request. *)
Lemma send_request_guards_passed url method data params hdrs :
  existsb (String.eqb method) allowed_methods = true ->
  is_not_None params && negb (isinstance_dict params) = false ->
  is_not_None data && negb (isinstance_dict data) = false ->
  is_not_None hdrs && negb (isinstance_dict data) = false ->
  send_request server url method data params hdrs =
  (headers_update hdrs ;;;
   self <- get_self ;;
   http server {| req_method := method; req_url := url; req_data := data;
                  req_headers := headers self |}).
Proof.
  intros H1 H2 H3 H4. unfold send_request. rewrite H1, H2, H3, H4. reflexivity.
Qed.

(** With [headers=None] and the guards passed, the merge raises
    [TypeError]; nothing was sent and the client is unchanged. *)
Lemma send_request_None_headers url method data params w :
  existsb (String.eqb method) allowed_methods = true ->
  is_not_None params && negb (isinstance_dict params) = false ->
  is_not_None data && negb (isinstance_dict data) = false ->
  send_request server url method data params PyNone w = (Err none_not_iterable, w).
Proof.
  intros H1 H2 H3.
  rewrite send_request_guards_passed by (assumption || reflexivity).
  unfold bind. rewrite headers_update_None. reflexivity.
Qed.

(** With a dict for [data] and a dict for [headers], the request goes
    out with the merged headers. *)
Lemma send_request_dicts url method d params o w :
  existsb (String.eqb method) allowed_methods = true ->
  is_not_None params && negb (isinstance_dict params) = false ->
  let h := dict_merge (headers (client w)) o in
  let rq := {| req_method := method; req_url := url; req_data := PyDict d;
               req_headers := h |} in
  send_request server url method (PyDict d) params (PyDict o) w =
  (server (sent w) rq,
   {| client := with_headers (client w) h; sent := sent w ++ [rq] |}).
Proof.
  intros H1 H2 h rq.
  rewrite send_request_guards_passed by (assumption || reflexivity).
  reflexivity.
Qed.

(** [send_request] never touches the client's fields other than
    [headers]. *)
Lemma send_request_keeps_config url method data params hdrs w :
  let w' := snd (send_request server url method data params hdrs w) in
  _key (client w') = _key (client w) /\
  base_url (client w') = base_url (client w) /\
  api_version (client w') = api_version (client w) /\
  response_format (client w') = response_format (client w).
Proof.
  unfold send_request.
  repeat match goal with
         | |- context [if ?b then _ else _] => destruct b
         end; simpl; auto.
  unfold bind, headers_update.
  destruct (dict_update (headers (client w)) hdrs) as [h [[]|e]]; simpl; auto.
Qed.

End SendRequest.

Section Dispatch.

Context {py : Interpreter}.
Variable server : list request -> request -> result pyval.

(** [_construct_request] stops where [send_request] stops. *)
Lemma construct_request_error url method data params hdrs w e w' :
  send_request server url method data params hdrs w = (Err e, w') ->
  _construct_request server url method data params hdrs w = (Err e, w').
Proof.
  intros H. unfold _construct_request, bind. rewrite H. reflexivity.
Qed.

(** On an answer, [_construct_request] adapts it by the client's format. *)
Lemma construct_request_ok url method data params hdrs w res w' :
  send_request server url method data params hdrs w = (Ok res, w') ->
  _construct_request server url method data params hdrs w =
  ((if String.eqb (response_format (client w')) "obj" && isinstance_dict res
    then convert_response res else Ok res), w').
Proof.
  intros H. unfold _construct_request, bind. rewrite H. simpl.
  destruct (String.eqb (response_format (client w')) "obj" && isinstance_dict res);
    reflexivity.
Qed.

(** [verify] is [_construct_request] with method [get], which the
    allow-list of [send_request] refuses. *)
Lemma verify_unfold transaction hdrs w :
  verify server transaction hdrs w =
  _construct_request server
    (base_url (client w) ++ "/" ++ api_version (client w)
       ++ "/transaction/verify/" ++ transaction)
    "get" PyNone PyNone hdrs w.
Proof. reflexivity. Qed.

(** Up to the dispatch, [initialize] is its two checks. *)
Lemma initialize_bad_amount email amount fn ln tx cur cb cust hdrs w e :
  validate_amount amount = Err e ->
  initialize server email amount fn ln tx cur cb cust hdrs w = (Err e, w).
Proof.
  intros H. unfold initialize, bind, lift. rewrite H. reflexivity.
Qed.

Lemma initialize_bad_email email amount fn ln tx cur cb cust hdrs w :
  validate_amount amount = Ok tt ->
  re_match email_pattern email = false ->
  initialize server email amount fn ln tx cur cb cust hdrs w =
  (Err InvalidEmailError, w).
Proof.
  intros H1 H2. unfold initialize, bind, lift. rewrite H1, H2. reflexivity.
Qed.

Lemma initialize_checked email amount fn ln tx cur cb cust hdrs w :
  validate_amount amount = Ok tt ->
  re_match email_pattern email = true ->
  initialize server email amount fn ln tx cur cb cust hdrs w =
  _construct_request server
    (base_url (client w) ++ "/" ++ api_version (client w)
       ++ "/transaction/initialize")
    "post" (PyDict (initialize_body email amount fn ln tx cur cb cust))
    PyNone hdrs w.
Proof.
  intros H1 H2. unfold initialize, bind, lift. rewrite H1, H2. simpl.
  unfold initialize_body. simpl.
  destruct cb as [u|]; [destruct (String.eqb u "")|];
    destruct cust as [[|kv c]|]; reflexivity.
Qed.

End Dispatch.

(* ================================================================== *)
(** ** The method allow-list and the argument checks *)

Section Guards.

Context {py : Interpreter}.
Variable server : list request -> request -> result pyval.

Lemma verify_stops_at_method_check transaction hdrs w :
  verify server transaction hdrs w = (Err InvalidMethodError, w).
Proof.
  rewrite verify_unfold.
  apply construct_request_error, send_request_bad_method. reflexivity.
Qed.

Lemma send_request_bad_params url method data params hdrs w :
  existsb (String.eqb method) allowed_methods = true ->
  is_not_None params = true -> isinstance_dict params = false ->
  send_request server url method data params hdrs w =
  (Err (ValueError "params must be a dict"), w).
Proof.
  intros H1 H2 H3. unfold send_request. rewrite H1, H2, H3. reflexivity.
Qed.

Lemma send_request_bad_data url method data params hdrs w :
  existsb (String.eqb method) allowed_methods = true ->
  is_not_None params && negb (isinstance_dict params) = false ->
  is_not_None data = true -> isinstance_dict data = false ->
  send_request server url method data params hdrs w =
  (Err (ValueError "data must be a dict"), w).
Proof.
  intros H1 H2 H3 H4. unfold send_request. rewrite H1, H2, H3, H4. reflexivity.
Qed.

(** The check on [headers] looks at [data]: it fires when [data] is not a
    dict, whatever [headers] is. *)
Lemma send_request_headers_check_reads_data url method params hdrs w :
  existsb (String.eqb method) allowed_methods = true ->
  is_not_None params && negb (isinstance_dict params) = false ->
  is_not_None hdrs = true ->
  send_request server url method PyNone params hdrs w =
  (Err (ValueError "headers must be a dict"), w).
Proof.
  intros H1 H2 H3. unfold send_request. rewrite H1, H2, H3. reflexivity.
Qed.

End Guards.

(** C2 (code defect).  [verify] asks [send_request] for method [get], which
    is not in [allowed_methods]: for every client, transaction id and headers
    the call ends in the [ValueError] of the method check, no request is made
    and the state is unchanged.  The GET the claim describes is never
    dispatched. *)
Theorem verify_never_dispatches {py : Interpreter} :
  forall (server : list request -> request -> result pyval)
         (transaction : string) (hdrs : pyval) (w : world),
    verify server transaction hdrs w = (Err InvalidMethodError, w) /\
    sent (snd (verify server transaction hdrs w)) = sent w.
Proof.
  intros. rewrite verify_stops_at_method_check. split; reflexivity.
Qed.

(** C1 (code defect).  On a client built from secret [sk_test_x] with the
    defaults, [initialize] with the claim's arguments and no [headers] ends in
    the [TypeError] of [self.headers.update(None)]: no request is made and the
    client is as it was built.  The POST the claim describes is not issued. *)
Theorem initialize_default_call_raises {py : Interpreter} :
  forall server : list request -> request -> result pyval,
  exists c : Chapa,
    new_default "sk_test_x" = Ok c /\
    initialize server "a@b.com" (PyInt 100) "A" "B" "tx1" default_currency
      None None PyNone {| client := c; sent := [] |}
    = (Err none_not_iterable, {| client := c; sent := [] |}).
Proof.
  intros server. eexists. split; [reflexivity|].
  rewrite initialize_checked by reflexivity.
  apply construct_request_error.
  apply send_request_None_headers; reflexivity.
Qed.

(** The same call with an empty dict for [headers] does what C1 describes:
    exactly one POST to the initialize URL, with the bearer header and the six
    body fields, and the gateway's answer returned. *)
Theorem initialize_default_call_with_headers {py : Interpreter} :
  forall server : list request -> request -> result pyval,
  exists c : Chapa,
    new_default "sk_test_x" = Ok c /\
    let rq :=
      {| req_method := "post";
         req_url := "https://api.chapa.co/v1/transaction/initialize";
         req_data := PyDict [(PyStr "first_name", PyStr "A"); (PyStr "last_name", PyStr "B");
                             (PyStr "tx_ref", PyStr "tx1"); (PyStr "currency", PyStr "ETB");
                             (PyStr "amount", PyInt 100); (PyStr "email", PyStr "a@b.com")];
         req_headers := [(PyStr "Authorization", PyStr "Bearer sk_test_x")] |} in
    initialize server "a@b.com" (PyInt 100) "A" "B" "tx1" default_currency
      None None (PyDict []) {| client := c; sent := [] |}
    = (server [] rq, {| client := c; sent := [rq] |}).
Proof.
  intros server. eexists. split; [reflexivity|].
  cbv zeta.
  rewrite initialize_checked by reflexivity.
  unfold _construct_request, bind.
  rewrite send_request_dicts by reflexivity. simpl.
  destruct (server [] _); reflexivity.
Qed.

(** C5.  [send_request] raises the method error for every method outside
    [allowed_methods], [get] among them, and an argument error when the
    method is [post] and [data] is given but is not a dict; in each case the
    state is unchanged, so nothing was sent. *)
Theorem send_request_validation :
  forall (server : list request -> request -> result pyval)
         (url method : string) (data params hdrs : pyval) (w : world),
    (method <> "post" -> method <> "put" ->
     send_request server url method data params hdrs w
     = (Err InvalidMethodError, w)) /\
    send_request server url "get" data params hdrs w
    = (Err InvalidMethodError, w) /\
    (is_not_None data = true -> isinstance_dict data = false ->
     exists e : exn,
       send_request server url "post" data params hdrs w = (Err e, w) /\
       InvalidArgumentError e).
Proof.
  intros. split; [|split].
  - intros H1 H2. apply send_request_bad_method.
    destruct (existsb (String.eqb method) allowed_methods) eqn:E; [|reflexivity].
    apply allowed_methods_spec in E. tauto.
  - apply send_request_bad_method. reflexivity.
  - intros H1 H2.
    destruct (is_not_None params && negb (isinstance_dict params)) eqn:E.
    + apply andb_true_iff in E. destruct E as [E1 E2].
      apply negb_true_iff in E2.
      exists (ValueError "params must be a dict"). split.
      * apply send_request_bad_params; auto.
      * left; reflexivity.
    + exists (ValueError "data must be a dict"). split.
      * apply send_request_bad_data; auto.
      * right; left; reflexivity.
Qed.

Lemma send_request_validation_witness :
  send_request (constant_server sample_answer) "u" "delete"
    (PyDict []) PyNone (PyDict []) (empty_world sample_client)
  = (Err InvalidMethodError, empty_world sample_client) /\
  exists e : exn,
    send_request (constant_server sample_answer) "u" "post"
      (PyStr "amount=1") PyNone (PyDict []) (empty_world sample_client)
    = (Err e, empty_world sample_client) /\
    InvalidArgumentError e.
Proof.
  split.
  - apply (send_request_validation (constant_server sample_answer) "u" "delete"
             (PyDict []) PyNone (PyDict []) (empty_world sample_client));
      discriminate.
  - apply (send_request_validation (constant_server sample_answer) "u" "delete"
             (PyStr "amount=1") PyNone (PyDict []) (empty_world sample_client));
      reflexivity.
Defined.

(** C6 (code defect).  The check meant for [headers] tests [data]: with a
    dict for [data] and a list for [headers], nothing is raised, the (empty)
    list is merged and the request goes out. *)
Theorem send_request_list_headers_not_rejected :
  forall (server : list request -> request -> result pyval)
         (url : string) (w : world),
    let rq := {| req_method := "post"; req_url := url; req_data := PyDict [];
                 req_headers := headers (client w) |} in
    isinstance_dict (PyList []) = false /\
    send_request server url "post" (PyDict []) PyNone (PyList []) w
    = (server (sent w) rq, {| client := client w; sent := sent w ++ [rq] |}).
Proof.
  intros. split; [reflexivity|].
  rewrite send_request_guards_passed by reflexivity.
  unfold bind, headers_update, get_self, http. simpl.
  rewrite with_headers_same. reflexivity.
Qed.

(** C7.  A client whose [response_format] is ['json'] returns from
    [_construct_request] exactly what [send_request] produced, result and
    state alike, whatever the answer is. *)
Theorem raw_format_is_identity {py : Interpreter} :
  forall (server : list request -> request -> result pyval)
         (url method : string) (data params hdrs : pyval) (w : world),
    response_format (client w) = "json" ->
    _construct_request server url method data params hdrs w
    = send_request server url method data params hdrs w.
Proof.
  intros server url method data params hdrs w Hfmt.
  pose proof (send_request_keeps_config server url method data params hdrs w)
    as Hcfg.
  destruct (send_request server url method data params hdrs w) as [[res|e] w'] eqn:E.
  - rewrite (construct_request_ok server url method data params hdrs w res w' E).
    simpl in Hcfg. destruct Hcfg as (_ & _ & _ & Hf).
    rewrite Hf, Hfmt. reflexivity.
  - apply construct_request_error. exact E.
Qed.

Lemma raw_format_is_identity_witness :
  response_format (client (empty_world sample_client)) = "json" /\
  _construct_request (constant_server sample_answer) "u" "post"
    (PyDict []) PyNone (PyDict []) (empty_world sample_client)
  = send_request (constant_server sample_answer) "u" "post"
      (PyDict []) PyNone (PyDict []) (empty_world sample_client) /\
  fst (send_request (constant_server sample_answer) "u" "post"
         (PyDict []) PyNone (PyDict []) (empty_world sample_client))
  = Ok sample_answer.
Proof.
  split; [reflexivity|]. split.
  - apply (raw_format_is_identity (constant_server sample_answer) "u" "post"
             (PyDict []) PyNone (PyDict []) (empty_world sample_client)).
    reflexivity.
  - reflexivity.
Defined.

(** C10, counterexample.  [verify] without headers does not reach the merge:
    it ends in the [ValueError] of the method check, not in a [TypeError]. *)
Lemma verify_without_headers_is_value_error :
  new_default "sk_test_x" = Ok sample_client /\
  verify (constant_server sample_answer) "tx1" PyNone (empty_world sample_client)
  = (Err InvalidMethodError, empty_world sample_client) /\
  is_value_error InvalidMethodError = true /\
  is_type_error InvalidMethodError = false.
Proof.
  split; [reflexivity|]. split; [|split; reflexivity].
  apply verify_stops_at_method_check.
Qed.

(** C10, amended.  A call of [send_request] whose method is allowed, whose
    [params] and [data] pass their checks and whose [headers] is [None] ends
    in the [TypeError] of [self.headers.update(None)], with the state
    unchanged, so before any request; so does [initialize] without headers
    once the amount and the email have passed their checks. *)
Theorem missing_headers_raise_type_error {py : Interpreter} :
  forall (server : list request -> request -> result pyval) (w : world),
    (forall (url method : string) (data params : pyval),
        method = "post" \/ method = "put" ->
        params = PyNone \/ isinstance_dict params = true ->
        data = PyNone \/ isinstance_dict data = true ->
        send_request server url method data params PyNone w
        = (Err none_not_iterable, w)) /\
    (forall (email : string) (amount : pyval)
            (first_name last_name tx_ref currency : string)
            (callback_url : option string) (customization : option dict),
        validate_amount amount = Ok tt ->
        re_match email_pattern email = true ->
        initialize server email amount first_name last_name tx_ref currency
          callback_url customization PyNone w
        = (Err none_not_iterable, w)) /\
    is_type_error none_not_iterable = true.
Proof.
  intros server w. split; [|split; [|reflexivity]].
  - intros url method data params Hm Hp Hd.
    apply send_request_None_headers.
    + apply allowed_methods_spec. exact Hm.
    + destruct Hp as [-> | Hp]; [reflexivity|]. rewrite Hp. apply andb_false_r.
    + destruct Hd as [-> | Hd]; [reflexivity|]. rewrite Hd. apply andb_false_r.
  - intros. rewrite initialize_checked by assumption.
    apply construct_request_error.
    apply send_request_None_headers; reflexivity.
Qed.

Lemma missing_headers_raise_type_error_witness :
  send_request (constant_server sample_answer) "u" "put" (PyDict []) PyNone
    PyNone (empty_world sample_client)
  = (Err none_not_iterable, empty_world sample_client) /\
  initialize (constant_server sample_answer) "a@b.com" (PyInt 100) "A" "B" "tx1"
    default_currency None None PyNone (empty_world sample_client)
  = (Err none_not_iterable, empty_world sample_client).
Proof.
  destruct (missing_headers_raise_type_error (constant_server sample_answer)
              (empty_world sample_client)) as (Hs & Hi & _).
  split.
  - apply Hs; [right; reflexivity | left; reflexivity | right; reflexivity].
  - apply Hi; reflexivity.
Defined.

(* ================================================================== *)
(** ** Keys: the equality of a dict *)

Lemma float_same_spec (x y : spec_float) : float_same x y = true <-> x = y.
Proof.
  destruct x as [s|s| |s m e], y as [t|t| |t n f]; simpl;
    try (split; [discriminate | intros H; discriminate H]).
  - rewrite Bool.eqb_true_iff. split; [intros ->; reflexivity | congruence].
  - rewrite Bool.eqb_true_iff. split; [intros ->; reflexivity | congruence].
  - split; reflexivity.
  - rewrite !andb_true_iff, Bool.eqb_true_iff, Pos.eqb_eq, Z.eqb_eq.
    split; [intros [[-> ->] ->]; reflexivity | intros H; inversion H; auto].
Qed.

Lemma same_value_refl (a : pyval) : same_value a a = true.
Proof.
  induction a as [|b|z|f|s|l IH|d IH|d IH] using pyval_ind_keys; simpl.
  - reflexivity.
  - apply Bool.eqb_reflx.
  - apply Z.eqb_refl.
  - apply float_same_spec. reflexivity.
  - apply String.eqb_refl.
  - induction IH as [|x r Hx _ IHr]; [reflexivity|].
    rewrite Hx. exact IHr.
  - induction IH as [|[k x] r [Hk Hx] _ IHr]; [reflexivity|].
    simpl in Hk, Hx. rewrite Hk, Hx. exact IHr.
  - induction IH as [|[k x] r [Hk Hx] _ IHr]; [reflexivity|].
    simpl in Hk, Hx. rewrite Hk, Hx. exact IHr.
Qed.

Lemma same_value_eq (a b : pyval) : same_value a b = true -> a = b.
Proof.
  revert b.
  induction a as [|x|z|f|s|l IH|d IH|d IH] using pyval_ind_keys;
    intros [|y|z'|f'|s'|l'|d'|d']; simpl; try discriminate.
  - reflexivity.
  - intros H. apply Bool.eqb_prop in H. congruence.
  - intros H. apply Z.eqb_eq in H. congruence.
  - intros H. apply float_same_spec in H. congruence.
  - intros H. apply String.eqb_eq in H. congruence.
  - intros H. f_equal. revert l' H.
    induction IH as [|x r Hx _ IHr]; intros [|y r'] H;
      try discriminate; [reflexivity|].
    apply andb_true_iff in H. destruct H as [H1 H2].
    f_equal; [apply Hx, H1 | apply IHr, H2].
  - intros H. f_equal. revert d' H.
    induction IH as [|[k x] r [Hk Hx] _ IHr]; intros [|[k' y] r'] H;
      try discriminate; [reflexivity|].
    simpl in Hk, Hx.
    apply andb_true_iff in H. destruct H as [H1 H3].
    apply andb_true_iff in H1. destruct H1 as [H1 H2].
    f_equal; [f_equal; [apply Hk, H1 | apply Hx, H2] | apply IHr, H3].
  - intros H. f_equal. revert d' H.
    induction IH as [|[k x] r [Hk Hx] _ IHr]; intros [|[k' y] r'] H;
      try discriminate; [reflexivity|].
    simpl in Hk, Hx.
    apply andb_true_iff in H. destruct H as [H1 H3].
    apply andb_true_iff in H1. destruct H1 as [H1 H2].
    f_equal; [f_equal; [apply Hk, H1 | apply Hx, H2] | apply IHr, H3].
Qed.

Lemma same_value_spec (a b : pyval) : same_value a b = true <-> a = b.
Proof.
  split; [apply same_value_eq | intros ->; apply same_value_refl].
Qed.

(** Two keys are the same key exactly when they have the same normal
    form. *)
Lemma key_eqb_spec (a b : pyval) :
  key_eqb a b = true <-> key_norm a = key_norm b.
Proof. apply same_value_spec. Qed.

Lemma key_eqb_refl (a : pyval) : key_eqb a a = true.
Proof. apply key_eqb_spec. reflexivity. Qed.

Lemma key_eqb_sym (a b : pyval) : key_eqb a b = key_eqb b a.
Proof.
  destruct (key_eqb b a) eqn:E.
  - apply key_eqb_spec. apply key_eqb_spec in E. congruence.
  - destruct (key_eqb a b) eqn:E'; [|reflexivity].
    apply key_eqb_spec in E'. symmetry in E'. apply key_eqb_spec in E'.
    congruence.
Qed.

(** Equal keys compare alike with every other key. *)
Lemma key_eqb_congr (a b c : pyval) :
  key_eqb a b = true -> key_eqb a c = key_eqb b c.
Proof.
  intros H. apply key_eqb_spec in H. unfold key_eqb. rewrite H. reflexivity.
Qed.

(** On texts the equality of keys is the equality of texts. *)
Lemma key_eqb_str (a b : string) : key_eqb (PyStr a) (PyStr b) = String.eqb a b.
Proof. reflexivity. Qed.

(** Only the text itself is the same key as a text. *)
Lemma key_eqb_str_inv (k : pyval) (s : string) :
  key_eqb k (PyStr s) = true -> k = PyStr s.
Proof.
  intros H. apply key_eqb_spec in H. simpl in H.
  destruct k as [|b|z|f|t|l|d|d]; simpl in H; try discriminate H.
  - destruct (float_as_int f); discriminate H.
  - exact H.
Qed.

(* ================================================================== *)
(** ** Dicts: lookup after assignment and after [update] *)

Lemma dict_get_set (d : dict) (k k' : pyval) (v : pyval) :
  dict_get (dict_set d k v) k' =
  if key_eqb k k' then Some v else dict_get d k'.
Proof.
  induction d as [|[k0 v0] r IH]; simpl.
  - reflexivity.
  - destruct (key_eqb k0 k) eqn:E0; simpl.
    + rewrite (key_eqb_congr k0 k k' E0).
      destruct (key_eqb k k'); reflexivity.
    + rewrite IH. destruct (key_eqb k0 k') eqn:E1; [|reflexivity].
      rewrite (key_eqb_sym k k'), <- (key_eqb_congr k0 k' k E1), E0.
      reflexivity.
Qed.

Lemma dict_has_set (d : dict) (k k' : pyval) (v : pyval) :
  dict_has d k' = true -> dict_has (dict_set d k v) k' = true.
Proof.
  unfold dict_has. rewrite dict_get_set.
  destruct (key_eqb k k'); auto.
Qed.

Lemma dict_has_merge (o d : dict) (k : pyval) :
  dict_has d k = true -> dict_has (dict_merge d o) k = true.
Proof.
  unfold dict_merge. revert d.
  induction o as [|[k0 v0] r IH]; simpl; intros d H.
  - exact H.
  - apply IH, dict_has_set, H.
Qed.

Lemma dict_get_merge_other (o d : dict) (k : pyval) :
  dict_has o k = false -> dict_get (dict_merge d o) k = dict_get d k.
Proof.
  unfold dict_merge. revert d.
  induction o as [|[k0 v0] r IH]; simpl; intros d H.
  - reflexivity.
  - unfold dict_has in H. simpl in H.
    destruct (key_eqb k0 k) eqn:E; [discriminate|].
    rewrite IH by exact H. rewrite dict_get_set, E. reflexivity.
Qed.

Lemma dict_has_update_pairs (items : list pyval) (d : dict) (i : Z) (k : pyval) :
  dict_has d k = true ->
  dict_has (fst (dict_update_pairs d items i)) k = true.
Proof.
  revert d i.
  induction items as [|item rest IH]; simpl; intros d i H.
  - exact H.
  - destruct (py_iter item) as [[|x [|y [|z t]]]|]; try exact H.
    destruct (hashable x); [|exact H].
    apply IH, dict_has_set, H.
Qed.

Lemma dict_get_update_pairs_other (items : list pyval) (d : dict) (i : Z) (k : string) :
  sets_key k (PyList items) = false ->
  dict_get (fst (dict_update_pairs d items i)) k = dict_get d k.
Proof.
  revert d i.
  induction items as [|item rest IH]; simpl; intros d i H.
  - reflexivity.
  - apply orb_false_iff in H. destruct H as [H1 H2].
    destruct (py_iter item) as [[|x [|y [|z t]]]|]; try reflexivity.
    destruct (hashable x); [|reflexivity].
    rewrite IH by exact H2. rewrite dict_get_set.
    destruct (key_eqb x k) eqn:E; [|reflexivity].
    apply key_eqb_str_inv in E. subst x.
    rewrite String.eqb_refl in H1. discriminate H1.
Qed.

(** The characters of a text, iterated, never form a pair. *)
Lemma dict_update_pairs_chars (l : list ascii) (d : dict) (i : Z) :
  fst (dict_update_pairs d (map (fun c => PyStr (str1 c)) l) i) = d.
Proof.
  destruct l; reflexivity.
Qed.

(** [update] never removes a key. *)
Lemma dict_has_update (d : dict) (other : pyval) (k : pyval) :
  dict_has d k = true -> dict_has (fst (dict_update d other)) k = true.
Proof.
  intros H. destruct other; simpl; auto.
  - rewrite dict_update_pairs_chars. exact H.
  - apply dict_has_update_pairs, H.
  - apply dict_has_merge, H.
Qed.

(** [update] leaves alone the keys its argument does not name. *)
Lemma dict_get_update_other (d : dict) (other : pyval) (k : string) :
  sets_key k other = false ->
  dict_get (fst (dict_update d other)) k = dict_get d k.
Proof.
  intros H. destruct other; simpl; auto.
  - rewrite dict_update_pairs_chars. reflexivity.
  - apply dict_get_update_pairs_other, H.
  - apply dict_get_merge_other, H.
Qed.

(* ================================================================== *)
(** ** What a call can do to the client *)

Section Steps.

Context {py : Interpreter}.
Variable server : list request -> request -> result pyval.

Lemma send_request_step url method data params hdrs w :
  headers_step hdrs w (snd (send_request server url method data params hdrs w)).
Proof.
  unfold send_request, headers_step.
  repeat match goal with
         | |- context [if ?b then _ else _] => destruct b
         end; simpl; auto.
  unfold bind, headers_update.
  destruct (dict_update (headers (client w)) hdrs) as [h [[]|e]]; simpl; auto.
Qed.

Lemma construct_request_state url method data params hdrs w :
  snd (_construct_request server url method data params hdrs w)
  = snd (send_request server url method data params hdrs w).
Proof.
  unfold _construct_request, bind.
  destruct (send_request server url method data params hdrs w) as [[res|e] w'];
    simpl; [|reflexivity].
  destruct (String.eqb (response_format (client w')) "obj" && isinstance_dict res);
    reflexivity.
Qed.

Lemma run_call_step (c : call) (w : world) :
  headers_step (call_headers c) w (run_call server c w).
Proof.
  destruct c as [url method data params hdrs
                | email amount fn ln tx cur cb cust hdrs
                | transaction hdrs]; unfold run_call, call_headers.
  - apply send_request_step.
  - destruct (validate_amount amount) as [[]|e] eqn:Ea.
    + destruct (re_match email_pattern email) eqn:Ee.
      * rewrite initialize_checked by assumption.
        rewrite construct_request_state. apply send_request_step.
      * rewrite initialize_bad_email by assumption. left; reflexivity.
    + erewrite initialize_bad_amount by eassumption. left; reflexivity.
  - rewrite verify_stops_at_method_check. left; reflexivity.
Qed.

End Steps.

(* ================================================================== *)
(** ** The Authorization header across calls *)

Section Authorization.

Context {py : Interpreter}.
Variable server : list request -> request -> result pyval.

Lemma headers_step_key hdrs w w' :
  headers_step hdrs w w' -> _key (client w') = _key (client w).
Proof.
  intros [H|H]; rewrite H; reflexivity.
Qed.

Lemma headers_step_has hdrs w w' k :
  headers_step hdrs w w' ->
  dict_has (headers (client w)) k = true ->
  dict_has (headers (client w')) k = true.
Proof.
  intros [H|H] Hk; rewrite H; simpl; [exact Hk|].
  apply dict_has_update, Hk.
Qed.

Lemma headers_step_get hdrs w w' k :
  headers_step hdrs w w' ->
  sets_key k hdrs = false ->
  dict_get (headers (client w')) k = dict_get (headers (client w)) k.
Proof.
  intros [H|H] Hk; rewrite H; simpl; [reflexivity|].
  apply dict_get_update_other, Hk.
Qed.

(** The key is never lost, and the secret never changes. *)
Lemma run_calls_keeps_key (cs : list call) (w : world) (k : string) :
  dict_has (headers (client w)) k = true ->
  dict_has (headers (client (run_calls server cs w))) k = true /\
  _key (client (run_calls server cs w)) = _key (client w).
Proof.
  revert w. induction cs as [|c cs IH]; intros w H; simpl.
  - split; [exact H | reflexivity].
  - pose proof (run_call_step server c w) as Hs.
    destruct (IH (run_call server c w)) as [H1 H2].
    + eapply headers_step_has; eassumption.
    + split; [exact H1|]. rewrite H2. eapply headers_step_key; eassumption.
Qed.

(** Calls whose headers do not name the key leave its value alone. *)
Lemma run_calls_keeps_value (cs : list call) (w : world) (k : string) :
  forallb (fun c => negb (sets_key k (call_headers c))) cs = true ->
  dict_get (headers (client (run_calls server cs w))) k
  = dict_get (headers (client w)) k.
Proof.
  revert w. induction cs as [|c cs IH]; intros w H; simpl.
  - reflexivity.
  - simpl in H. apply andb_true_iff in H. destruct H as [Hc Hcs].
    apply negb_true_iff in Hc.
    rewrite IH by exact Hcs.
    eapply headers_step_get; [apply run_call_step | exact Hc].
Qed.

End Authorization.

Lemma init_headers secret base_ur version fmt c :
  __init__ secret base_ur version fmt = Ok c ->
  _key c = secret /\
  headers c = [(PyStr "Authorization", authorization_of secret)].
Proof.
  unfold __init__. destruct (existsb (String.eqb fmt) ["json"; "obj"]);
    [|discriminate].
  intros H. injection H as <-. split; reflexivity.
Qed.

(** C9, counterexample.  A call that supplies an [Authorization] header
    overwrites the client's own, for good: the next call, made with empty
    extra headers, is sent with the caller's value, not with the bearer token
    of the secret. *)
Lemma authorization_header_overwritten :
  new_default "sk_test_x" = Ok sample_client /\
  dict_get
    (headers (client
       (run_calls (constant_server sample_answer)
          [Call_initialize "a@b.com" (PyInt 100) "A" "B" "tx1" default_currency
             None None (PyDict [(PyStr "Authorization", PyStr "Bearer other")]);
           Call_initialize "a@b.com" (PyInt 100) "A" "B" "tx2" default_currency
             None None (PyDict [])]
          (empty_world sample_client))))
    "Authorization"
  = Some (PyStr "Bearer other") /\
  map (fun rq => dict_get (req_headers rq) "Authorization")
    (sent
       (run_calls (constant_server sample_answer)
          [Call_initialize "a@b.com" (PyInt 100) "A" "B" "tx1" default_currency
             None None (PyDict [(PyStr "Authorization", PyStr "Bearer other")]);
           Call_initialize "a@b.com" (PyInt 100) "A" "B" "tx2" default_currency
             None None (PyDict [])]
          (empty_world sample_client)))
  = [Some (PyStr "Bearer other"); Some (PyStr "Bearer other")] /\
  PyStr "Bearer other" <> authorization_of "sk_test_x".
Proof.
  split; [reflexivity|]. split; [vm_compute; reflexivity|].
  split; [vm_compute; reflexivity | discriminate].
Qed.

(** C9, amended.  After any sequence of [send_request], [initialize] and
    [verify] calls on a constructed client, the client's headers still have
    an [Authorization] entry and the secret is unchanged; the entry is
    ['Bearer ' + secret] provided no call supplied headers that name
    [Authorization]. *)
Theorem authorization_header_invariant {py : Interpreter} :
  forall (server : list request -> request -> result pyval)
         (secret base_ur version fmt : string) (c : Chapa) (calls : list call),
    __init__ secret base_ur version fmt = Ok c ->
    dict_has (headers (client (run_calls server calls (empty_world c))))
      "Authorization" = true /\
    _key (client (run_calls server calls (empty_world c))) = secret /\
    (forallb (fun cl => negb (sets_key "Authorization" (call_headers cl))) calls
     = true ->
     dict_get (headers (client (run_calls server calls (empty_world c))))
       "Authorization"
     = Some (authorization_of secret)).
Proof.
  intros server secret base_ur version fmt c calls Hinit.
  destruct (init_headers secret base_ur version fmt c Hinit) as [Hk Hh].
  destruct (run_calls_keeps_key server calls (empty_world c) "Authorization")
    as [H1 H2].
  { simpl. rewrite Hh. reflexivity. }
  split; [exact H1|]. split.
  - rewrite H2. exact Hk.
  - intros Hcalls. rewrite run_calls_keeps_value by exact Hcalls.
    simpl. rewrite Hh. reflexivity.
Qed.

Lemma authorization_header_invariant_witness :
  __init__ "sk_test_x" default_base_ur default_api_version "obj"
  = Ok sample_object_client /\
  dict_get
    (headers (client
       (run_calls (constant_server sample_answer)
          [Call_initialize "a@b.com" (PyStr "12.5") "A" "B" "tx1" default_currency
             None None (PyDict [(PyStr "X-Trace", PyStr "1")]);
           Call_verify "tx1" PyNone;
           Call_send_request "u" "put" (PyDict []) PyNone
             (PyList [PyList [PyStr "Accept"; PyStr "application/json"]])]
          (empty_world sample_object_client))))
    "Authorization"
  = Some (authorization_of "sk_test_x").
Proof.
  split; [reflexivity|].
  apply (authorization_header_invariant (constant_server sample_answer)
           "sk_test_x" default_base_ur default_api_version "obj"
           sample_object_client
           [Call_initialize "a@b.com" (PyStr "12.5") "A" "B" "tx1" default_currency
              None None (PyDict [(PyStr "X-Trace", PyStr "1")]);
            Call_verify "tx1" PyNone;
            Call_send_request "u" "put" (PyDict []) PyNone
              (PyList [PyList [PyStr "Accept"; PyStr "application/json"]])]);
    reflexivity.
Defined.

(* ================================================================== *)
(** ** Derivatives decide the language of a pattern *)

Lemma nullable_lang (r : regex) : nullable r = true <-> lang r [].
Proof.
  split.
  - induction r; simpl; intros H; try discriminate.
    + constructor.
    + apply andb_true_iff in H. destruct H as [H1 H2].
      change (@nil ascii) with (@nil ascii ++ [])%list. constructor; auto.
    + apply orb_true_iff in H. destruct H as [H|H];
        [apply lang_AltL | apply lang_AltR]; auto.
    + constructor.
  - intros H. remember [] as s eqn:Es.
    induction H; simpl; try discriminate; auto.
    + apply app_eq_nil in Es. destruct Es as [-> ->].
      rewrite IHlang1, IHlang2; auto.
    + rewrite IHlang; auto.
    + rewrite IHlang; auto. apply orb_true_r.
Qed.

Lemma deriv_sound (a : ascii) (r : regex) :
  forall s, lang (deriv a r) s -> lang r (a :: s).
Proof.
  induction r; simpl; intros s H.
  - inversion H.
  - inversion H.
  - destruct (Ascii.eqb a c) eqn:E; inversion H; subst.
    apply Ascii.eqb_eq in E. subst. constructor.
  - destruct (Ascii.eqb a c) eqn:E; inversion H; subst.
    apply Ascii.eqb_neq in E. constructor. exact E.
  - destruct (nullable r1) eqn:N.
    + inversion H; subst.
      * match goal with
        | H' : lang (Cat _ _) _ |- _ => inversion H'; subst
        end.
        change (a :: s1 ++ s2)%list with ((a :: s1) ++ s2)%list. constructor; auto.
      * change (a :: s) with ([] ++ a :: s)%list. constructor; auto.
        apply nullable_lang. exact N.
    + inversion H; subst.
      change (a :: s1 ++ s2)%list with ((a :: s1) ++ s2)%list. constructor; auto.
  - inversion H; subst; [apply lang_AltL | apply lang_AltR]; auto.
  - inversion H; subst.
    change (a :: s1 ++ s2)%list with ((a :: s1) ++ s2)%list. constructor; auto.
Qed.

Lemma deriv_complete (a : ascii) (r : regex) (s' : list ascii) :
  lang r s' -> forall u, s' = a :: u -> lang (deriv a r) u.
Proof.
  induction 1 as [ | c | c b Hb | r1 r2 s1 s2 H1 IH1 H2 IH2
                 | r1 r2 s H IH | r1 r2 s H IH | r
                 | r s1 s2 H1 IH1 H2 IH2 ]; intros u Eu; simpl.
  - discriminate.
  - injection Eu as -> <-. rewrite Ascii.eqb_refl. constructor.
  - injection Eu as -> <-.
    destruct (Ascii.eqb a c) eqn:E.
    + apply Ascii.eqb_eq in E. contradiction.
    + constructor.
  - destruct s1 as [|b s1].
    + simpl in Eu. subst s2.
      assert (N : nullable r1 = true) by (apply nullable_lang; assumption).
      rewrite N. apply lang_AltR. apply IH2. reflexivity.
    + simpl in Eu. injection Eu as -> <-.
      destruct (nullable r1).
      * apply lang_AltL. constructor; auto.
      * constructor; auto.
  - apply lang_AltL. auto.
  - apply lang_AltR. auto.
  - discriminate.
  - destruct s1 as [|b s1].
    + simpl in Eu. apply IH2 in Eu. simpl in Eu. exact Eu.
    + simpl in Eu. injection Eu as -> <-. constructor; auto.
Qed.

Lemma deriv_lang (a : ascii) (r : regex) (s : list ascii) :
  lang (deriv a r) s <-> lang r (a :: s).
Proof.
  split.
  - apply deriv_sound.
  - intros H. eapply deriv_complete; [exact H | reflexivity].
Qed.

(** [prefix_match] holds exactly when a prefix is in the language. *)
Lemma prefix_match_spec (s : list ascii) :
  forall r, prefix_match r s = true <-> exists p q, s = (p ++ q)%list /\ lang r p.
Proof.
  induction s as [|a t IH]; intros r; simpl.
  - rewrite orb_false_r, nullable_lang. split.
    + intros H. exists [], []. auto.
    + intros (p & q & E & H). symmetry in E. apply app_eq_nil in E.
      destruct E as [-> _]. exact H.
  - rewrite orb_true_iff, IH, nullable_lang. split.
    + intros [H | (p & q & E & H)].
      * exists [], (a :: t). auto.
      * exists (a :: p), q. split; [simpl; congruence|].
        apply deriv_lang. exact H.
    + intros (p & q & E & H). destruct p as [|b p].
      * left. exact H.
      * right. simpl in E. injection E as <- ->.
        exists p, q. split; [reflexivity|]. apply deriv_lang. exact H.
Qed.

(** A run of characters other than [c]. *)
Lemma lang_star_notlit (c : ascii) (s : list ascii) :
  lang (Star (NotLit c)) s <-> Forall (fun a => a <> c) s.
Proof.
  split.
  - intros H. remember (Star (NotLit c)) as r eqn:Er.
    induction H; try discriminate.
    + constructor.
    + injection Er as ->. inversion H; subst. simpl. constructor; auto.
  - induction 1 as [|a l Ha Hl IH].
    + constructor.
    + change (a :: l) with ([a] ++ l)%list. constructor; [constructor|]; auto.
Qed.

Lemma lang_plus_notlit (c : ascii) (s : list ascii) :
  lang (Plus (NotLit c)) s <-> s <> [] /\ Forall (fun a => a <> c) s.
Proof.
  unfold Plus. split.
  - intros H. inversion H; subst.
    match goal with H1 : lang (NotLit _) _ |- _ => inversion H1; subst end.
    split; [discriminate|]. simpl. constructor; auto.
    apply lang_star_notlit. assumption.
  - intros [Hne H]. destruct s as [|a l]; [contradiction|].
    inversion H; subst.
    change (a :: l) with ([a] ++ l)%list. constructor; [constructor; auto|].
    apply lang_star_notlit. assumption.
Qed.

Lemma lang_lit_cat (c : ascii) (r : regex) (s : list ascii) :
  lang (Cat (Lit c) r) s <-> exists t, s = c :: t /\ lang r t.
Proof.
  split.
  - intros H. inversion H; subst.
    match goal with H1 : lang (Lit _) _ |- _ => inversion H1; subst end.
    eexists. split; [reflexivity | assumption].
  - intros (t & -> & H). change (c :: t) with ([c] ++ t)%list.
    constructor; [constructor | exact H].
Qed.

Lemma lang_cat (r1 r2 : regex) (s : list ascii) :
  lang (Cat r1 r2) s <-> exists s1 s2, s = (s1 ++ s2)%list /\ lang r1 s1 /\ lang r2 s2.
Proof.
  split.
  - intros H. inversion H; subst. eauto.
  - intros (s1 & s2 & -> & H1 & H2). constructor; auto.
Qed.

(** The language of the email pattern, spelled out. *)
Lemma lang_email_pattern (s : list ascii) :
  lang email_pattern s <->
  exists l d t : list ascii,
    s = (l ++ "@"%char :: d ++ "."%char :: t)%list /\
    (l <> [] /\ Forall (fun a => a <> "@"%char) l) /\
    (d <> [] /\ Forall (fun a => a <> "@"%char) d) /\
    (t <> [] /\ Forall (fun a => a <> "@"%char) t).
Proof.
  unfold email_pattern. rewrite lang_cat. split.
  - intros (l & s2 & -> & Hl & H2).
    apply lang_lit_cat in H2. destruct H2 as (s3 & -> & H3).
    apply lang_cat in H3. destruct H3 as (d & s4 & -> & Hd & H4).
    apply lang_lit_cat in H4. destruct H4 as (t & -> & Ht).
    exists l, d, t. rewrite <- !lang_plus_notlit. auto.
  - intros (l & d & t & -> & Hl & Hd & Ht).
    rewrite <- lang_plus_notlit in Hl, Hd, Ht.
    exists l, ("@"%char :: d ++ "."%char :: t)%list. split; [reflexivity|].
    split; [exact Hl|].
    apply lang_lit_cat. eexists. split; [reflexivity|].
    apply lang_cat. exists d, ("."%char :: t). split; [reflexivity|].
    split; [exact Hd|].
    apply lang_lit_cat. eexists. split; [reflexivity | exact Ht].
Qed.

(* ================================================================== *)
(** ** Texts and their characters *)

Lemma list_ascii_of_string_app (a b : string) :
  list_ascii_of_string (a ++ b)
  = (list_ascii_of_string a ++ list_ascii_of_string b)%list.
Proof.
  induction a as [|c a IH]; simpl; [reflexivity | rewrite IH; reflexivity].
Qed.

Lemma list_ascii_of_string_inj (a b : string) :
  list_ascii_of_string a = list_ascii_of_string b -> a = b.
Proof.
  intros H. rewrite <- (string_of_list_ascii_of_string a),
              <- (string_of_list_ascii_of_string b), H. reflexivity.
Qed.

Lemma no_at_chars (s : string) :
  no_at s <-> Forall (fun a => a <> "@"%char) (list_ascii_of_string s).
Proof.
  unfold no_at. induction s as [|c s IH]; simpl.
  - split; [constructor | reflexivity].
  - rewrite orb_false_iff, IH, Ascii.eqb_neq. split.
    + intros [H1 H2]. constructor; assumption.
    + intros H. inversion H; subst. split; assumption.
Qed.

Lemma nonempty_chars (s : string) :
  s <> "" <-> list_ascii_of_string s <> [].
Proof.
  destruct s; simpl; split; intros H; try congruence; discriminate.
Qed.

Lemma email_chars (l d t q : string) :
  list_ascii_of_string (l ++ "@" ++ d ++ "." ++ t ++ q)
  = ((list_ascii_of_string l ++ "@"%char :: list_ascii_of_string d
        ++ "."%char :: list_ascii_of_string t) ++ list_ascii_of_string q)%list.
Proof.
  rewrite list_ascii_of_string_app.
  change ("@" ++ d ++ "." ++ t ++ q) with (String "@" (d ++ "." ++ t ++ q)).
  cbn [list_ascii_of_string]. rewrite list_ascii_of_string_app.
  change ("." ++ t ++ q) with (String "." (t ++ q)).
  cbn [list_ascii_of_string]. rewrite list_ascii_of_string_app.
  rewrite <- !app_assoc. cbn [app]. rewrite <- !app_assoc. reflexivity.
Qed.

(** The pattern of [initialize] accepts exactly the texts that start with
    the shape [matches_email_pattern] describes. *)
Lemma re_match_email_spec (email : string) :
  re_match email_pattern email = true <-> matches_email_pattern email.
Proof.
  unfold re_match, matches_email_pattern.
  rewrite prefix_match_spec. split.
  - intros (p & q & E & H).
    apply lang_email_pattern in H.
    destruct H as (l & d & t & -> & [Hl1 Hl2] & [Hd1 Hd2] & [Ht1 Ht2]).
    exists (string_of_list_ascii l), (string_of_list_ascii d),
           (string_of_list_ascii t), (string_of_list_ascii q).
    repeat split.
    + apply list_ascii_of_string_inj. rewrite E, email_chars.
      rewrite !list_ascii_of_string_of_list_ascii. reflexivity.
    + apply nonempty_chars. rewrite list_ascii_of_string_of_list_ascii. exact Hl1.
    + apply no_at_chars. rewrite list_ascii_of_string_of_list_ascii. exact Hl2.
    + apply nonempty_chars. rewrite list_ascii_of_string_of_list_ascii. exact Hd1.
    + apply no_at_chars. rewrite list_ascii_of_string_of_list_ascii. exact Hd2.
    + apply nonempty_chars. rewrite list_ascii_of_string_of_list_ascii. exact Ht1.
    + apply no_at_chars. rewrite list_ascii_of_string_of_list_ascii. exact Ht2.
  - intros (l & d & t & q & -> & Hl1 & Hl2 & Hd1 & Hd2 & Ht1 & Ht2).
    exists (list_ascii_of_string l ++ "@"%char :: list_ascii_of_string d
              ++ "."%char :: list_ascii_of_string t)%list,
           (list_ascii_of_string q).
    split.
    + apply email_chars.
    + apply lang_email_pattern.
      exists (list_ascii_of_string l), (list_ascii_of_string d),
             (list_ascii_of_string t).
      rewrite <- !no_at_chars, <- !nonempty_chars. auto 10.
Qed.

Lemma re_match_email_false (email : string) :
  re_match email_pattern email = false <-> ~ matches_email_pattern email.
Proof.
  rewrite <- re_match_email_spec. destruct (re_match email_pattern email);
    split; intros H; congruence.
Qed.




(* ================================================================== *)
(** ** The amount check *)


Lemma str_isdigit_spec (s : string) :
  str_isdigit s = true <-> s <> "" /\ str_forall char_isdigit s = true.
Proof.
  destruct s as [|c s]; simpl.
  - split; [discriminate | intros [H _]; contradiction].
  - split; [intros H; split; [discriminate | exact H] | tauto].
Qed.

(** A point is not a digit, so a run of digits has none to remove. *)
Lemma remove_point_digits (a : string) :
  str_forall char_isdigit a = true -> str_remove_first "." a = a.
Proof.
  induction a as [|c a IH]; simpl; [reflexivity|].
  intros H. apply andb_true_iff in H. destruct H as [Hc Ha].
  destruct (Ascii.eqb c ".") eqn:E.
  - apply Ascii.eqb_eq in E. subst c. discriminate.
  - rewrite IH by exact Ha. reflexivity.
Qed.




(** Values whose [str] opens with a letter or a bracket never pass. *)
Lemma not_numeral_rejected (amount : pyval) :
  match amount with
  | PyNone | PyList _ | PyDict _ | PyResponse _ => True
  | _ => False
  end ->
  validate_amount amount = Err InvalidAmountError.
Proof.
  destruct amount; intros H; try contradiction; reflexivity.
Qed.







(* ================================================================== *)
(** ** The object graph of [convert_response] *)

Lemma key_mem_false (k : pyval) (l : list pyval) :
  key_mem k l = false <-> forall x, In x l -> key_eqb x k = false.
Proof.
  induction l as [|y l IH]; simpl.
  - split; [intros _ x [] | reflexivity].
  - rewrite orb_false_iff, IH. split.
    + intros [H1 H2] x [<- | Hx]; auto.
    + intros H. split; [apply H; left; reflexivity|].
      intros x Hx. apply H. right; exact Hx.
Qed.

Lemma key_mem_app (k : pyval) (l1 l2 : list pyval) :
  key_mem k (l1 ++ l2)%list = key_mem k l1 || key_mem k l2.
Proof.
  induction l1 as [|y l1 IH]; simpl; [reflexivity|].
  rewrite IH, orb_assoc. reflexivity.
Qed.

(** Assigning to a key the dict does not have appends the entry. *)
Lemma dict_set_fresh (acc : dict) (k : pyval) (v : pyval) :
  key_mem k (map fst acc) = false ->
  dict_set acc k v = (acc ++ [(k, v)])%list.
Proof.
  induction acc as [|[k0 v0] r IH]; simpl; intros H.
  - reflexivity.
  - apply orb_false_iff in H. destruct H as [H0 Hr].
    rewrite H0, IH by exact Hr. reflexivity.
Qed.

Lemma dict_merge_fresh (d : dict) :
  forall acc : dict,
    keys_distinct (map fst d) = true ->
    (forall k, In k (map fst d) -> key_mem k (map fst acc) = false) ->
    dict_merge acc d = (acc ++ d)%list.
Proof.
  unfold dict_merge.
  induction d as [|[k v] r IH]; simpl; intros acc Hnd Hfresh.
  - rewrite app_nil_r. reflexivity.
  - apply andb_true_iff in Hnd. destruct Hnd as [Hk Hr].
    apply negb_true_iff in Hk.
    rewrite dict_set_fresh by (apply Hfresh; left; reflexivity).
    rewrite IH.
    + rewrite <- app_assoc. reflexivity.
    + exact Hr.
    + intros k' Hin. rewrite map_app, key_mem_app. simpl.
      rewrite (Hfresh k') by (right; exact Hin). simpl.
      rewrite orb_false_r, key_eqb_sym.
      exact (proj1 (key_mem_false k (map fst r)) Hk k' Hin).
Qed.

(** A dict rebuilt from its own items is itself. *)
Lemma dict_merge_nil (d : dict) :
  keys_distinct (map fst d) = true -> dict_merge [] d = d.
Proof.
  intros H. rewrite dict_merge_fresh; [reflexivity | exact H | reflexivity].
Qed.

Lemma map_result_ok {A B : Type} (f : A -> result B) (R : A -> B -> Prop)
    (l : list A) :
  Forall (fun x => exists y, f x = Ok y /\ R x y) l ->
  exists l', map_result f l = Ok l' /\ Forall2 R l l'.
Proof.
  induction 1 as [|x l (y & Hy & Hxy) Hl (l' & Hl' & HR)]; simpl.
  - exists []. split; [reflexivity | constructor].
  - rewrite Hy, Hl'. exists (y :: l'). split; [reflexivity | constructor; auto].
Qed.

Lemma map_result_same {A : Type} (f : A -> result A) (l : list A) :
  Forall (fun x => f x = Ok x) l -> map_result f l = Ok l.
Proof.
  induction 1 as [|x l Hx _ IH]; simpl; [reflexivity|].
  rewrite Hx, IH. reflexivity.
Qed.

Lemma adapted_list (l l' : list pyval) :
  Forall2 adapted l l' -> adapted (PyList l) (PyList l').
Proof.
  unfold adapted. induction 1 as [|x y l l' [H1 H2] Hl [IH1 IH2]]; simpl.
  - split; reflexivity.
  - injection IH1 as IH1. simpl in IH2.
    rewrite H1, IH1, H2, IH2. split; reflexivity.
Qed.

Lemma adapted_items (d d' : dict) :
  Forall2 (fun kv kv' => fst kv' = fst kv /\ adapted (snd kv) (snd kv')) d d' ->
  map fst d' = map fst d /\
  map (fun kv => (fst kv, to_mapping (snd kv))) d' = d /\
  forallb (fun kv => all_objects (snd kv)) d' = true.
Proof.
  induction 1 as [|[k x] [k' y] d d' [Hk [H1 H2]] Hd (IH1 & IH2 & IH3)]; simpl.
  - repeat split.
  - simpl in Hk, H1, H2. subst k'.
    rewrite IH1, IH2, IH3, H1, H2. repeat split.
Qed.

(** Every part of a value is nested less deep than the value. *)
Lemma nesting_elem (f : pyval -> nat) (l : list pyval) (x : pyval) :
  In x l -> (f x <= list_max (map f l))%nat.
Proof.
  intros Hin.
  assert (H : Forall (fun k => (k <= list_max (map f l))%nat) (map f l))
    by (apply list_max_le; lia).
  rewrite Forall_forall in H. apply H, in_map, Hin.
Qed.

Lemma nesting_item (d : dict) (kv : pyval * pyval) :
  In kv d ->
  (nesting (snd kv) <= list_max (map (fun kv => nesting (snd kv)) d))%nat.
Proof.
  intros Hin.
  assert (H : Forall (fun k => (k <= list_max (map (fun kv => nesting (snd kv)) d))%nat)
                (map (fun kv => nesting (snd kv)) d))
    by (apply list_max_le; lia).
  rewrite Forall_forall in H.
  apply H. apply (in_map (fun kv => nesting (snd kv))). exact Hin.
Qed.

Section RoundTrip.

Context {py : Interpreter}.

(** [json.dumps] spells a value of the shape of decoded JSON that it has
    room for, and the text spells that value. *)
Lemma json_dumps_shape (v : pyval) :
  forall level : nat,
    json_shape v = true ->
    (level + nesting v <= dumps_depth)%nat ->
    json_dumps level v = Ok v.
Proof.
  induction v as [ | b | z | f | s | l IH | d IH | a IH ] using pyval_ind;
    intros level Hj Hn; try reflexivity.
  - simpl in Hj. apply negb_true_iff in Hj. simpl. rewrite Hj. reflexivity.
  - simpl in Hj, Hn. rewrite forallb_forall in Hj. simpl.
    assert (Hlt : (level <? dumps_depth)%nat = true) by (apply Nat.ltb_lt; lia).
    rewrite Hlt. rewrite map_result_same; [reflexivity|].
    rewrite Forall_forall in *. intros x Hx.
    apply IH; [exact Hx | apply Hj, Hx |].
    pose proof (nesting_elem nesting l x Hx). lia.
  - simpl in Hj, Hn.
    apply andb_true_iff in Hj. destruct Hj as [Hj Hv].
    apply andb_true_iff in Hj. destruct Hj as [Hs _].
    rewrite forallb_forall in Hs, Hv. simpl.
    assert (Hlt : (level <? dumps_depth)%nat = true) by (apply Nat.ltb_lt; lia).
    rewrite Hlt. rewrite map_result_same; [reflexivity|].
    rewrite Forall_forall in *. intros [k x] Hin.
    specialize (Hs _ Hin). specialize (Hv _ Hin). specialize (IH _ Hin).
    simpl in Hs, Hv, IH |- *.
    destruct k; try discriminate Hs. simpl.
    rewrite IH; [reflexivity | exact Hv |].
    pose proof (nesting_item d _ Hin) as Hle. simpl in Hle. lia.
  - discriminate Hj.
Qed.

(** [json.loads] with the hook [Response] turns such a text into the same
    value with every dict an object. *)
Lemma json_loads_adapts (v : pyval) :
  forall level : nat,
    json_shape v = true ->
    (level + nesting v <= Nat.min loads_depth hook_depth)%nat ->
    exists r, json_loads Response level v = Ok r /\ adapted v r.
Proof.
  induction v as [ | b | z | f | s | l IH | d IH | a IH ] using pyval_ind;
    intros level Hj Hn;
    try (eexists; split; [reflexivity | split; reflexivity]).
  - simpl in Hj. apply negb_true_iff in Hj.
    exists (PyInt z). simpl. rewrite Hj. split; [reflexivity | split; reflexivity].
  - (* list *)
    simpl in Hj, Hn. rewrite forallb_forall in Hj.
    assert (Hlt : (level <? loads_depth)%nat = true) by (apply Nat.ltb_lt; lia).
    destruct (map_result_ok (json_loads Response (S level)) adapted l)
      as (l' & Hl' & HR).
    { rewrite Forall_forall in *. intros x Hx.
      apply IH; [exact Hx | apply Hj, Hx |].
      pose proof (nesting_elem nesting l x Hx). lia. }
    exists (PyList l'). simpl. rewrite Hlt, Hl'.
    split; [reflexivity | apply adapted_list; exact HR].
  - (* dict *)
    simpl in Hj, Hn.
    apply andb_true_iff in Hj. destruct Hj as [Hj Hv].
    apply andb_true_iff in Hj. destruct Hj as [_ Hk].
    rewrite forallb_forall in Hv.
    assert (Hlt : (level <? loads_depth)%nat = true) by (apply Nat.ltb_lt; lia).
    assert (Hlt' : (level <? hook_depth)%nat = true) by (apply Nat.ltb_lt; lia).
    destruct (map_result_ok
                (fun kv => match json_loads Response (S level) (snd kv) with
                           | Ok x => Ok (fst kv, x)
                           | Err e => Err e
                           end)
                (fun kv kv' => fst kv' = fst kv /\ adapted (snd kv) (snd kv'))
                d)
      as (d' & Hd' & HR).
    { rewrite Forall_forall in *. intros kv Hin.
      destruct (IH kv Hin (S level) (Hv kv Hin)) as (x & Hx & Hax).
      { pose proof (nesting_item d _ Hin). lia. }
      exists (fst kv, x). rewrite Hx. auto. }
    apply adapted_items in HR. destruct HR as (Hkeys & Hmap & Hobj).
    assert (Hd'k : keys_distinct (map fst d') = true) by (rewrite Hkeys; exact Hk).
    exists (PyResponse d'). simpl. rewrite Hlt, Hd', Hlt'. unfold Response.
    rewrite (dict_merge_nil d' Hd'k), (dict_merge_nil d' Hd'k).
    split; [reflexivity|]. split; simpl; [rewrite Hmap; reflexivity | exact Hobj].
  - (* an object is not JSON *)
    discriminate Hj.
Qed.

Lemma is_json_parts (v : pyval) :
  is_json v = true ->
  json_shape v = true /\
  (nesting v <= dumps_depth)%nat /\
  (nesting v <= Nat.min loads_depth hook_depth)%nat.
Proof.
  unfold is_json, json_depth. intros H.
  apply andb_true_iff in H. destruct H as [Hs Hn].
  apply Nat.leb_le in Hn. split; [exact Hs | lia].
Qed.

Lemma json_loads_dumps_adapts (v : pyval) :
  is_json v = true ->
  exists r, json_loads_dumps Response v = Ok r /\ adapted v r.
Proof.
  intros Hj. apply is_json_parts in Hj. destruct Hj as (Hs & Hd & Hl).
  unfold json_loads_dumps.
  rewrite (json_dumps_shape v 0%nat Hs Hd).
  apply json_loads_adapts; assumption.
Qed.


End RoundTrip.





(** X2.  With [data] left at [None], a dict given for [headers] is refused
    as not being a dict: the check reads [data]. *)
Theorem send_request_dict_headers_refused_without_data :
  forall (server : list request -> request -> result pyval)
         (url : string) (o : dict) (w : world),
    send_request server url "post" PyNone PyNone (PyDict o) w
    = (Err (ValueError "headers must be a dict"), w).
Proof.
  intros. apply send_request_headers_check_reads_data; reflexivity.
Qed.

(* ================================================================== *)
(** * Further properties of the client *)

(** ** Every way [send_request] can end *)

Section SendRequestCases.

Context {py : Interpreter}.
Variable server : list request -> request -> result pyval.

(** [send_request] ends in one of three ways: an exception with the state
    untouched; an exception of the merge with some headers already merged
    and nothing sent; or one request made, with an allowed method, a dict
    for the body and the merged headers, whose answer is the result. *)
Lemma send_request_cases url method data params hdrs w :
  let h' := fst (dict_update (headers (client w)) hdrs) in
  let rq := {| req_method := method; req_url := url; req_data := data;
               req_headers := h' |} in
  (exists e, send_request server url method data params hdrs w = (Err e, w)) \/
  (exists e, send_request server url method data params hdrs w
             = (Err e, {| client := with_headers (client w) h';
                          sent := sent w |})) \/
  (existsb (String.eqb method) allowed_methods = true /\
   isinstance_dict data = true /\
   send_request server url method data params hdrs w
   = (server (sent w) rq,
      {| client := with_headers (client w) h'; sent := (sent w ++ [rq])%list |})).
Proof.
  intros h' rq. subst h' rq. unfold send_request.
  destruct (existsb (String.eqb method) allowed_methods) eqn:Em; simpl;
    [|left; eexists; reflexivity].
  destruct (is_not_None params && negb (isinstance_dict params));
    [left; eexists; reflexivity|].
  destruct (is_not_None data && negb (isinstance_dict data)) eqn:Ed;
    [left; eexists; reflexivity|].
  destruct (is_not_None hdrs && negb (isinstance_dict data)) eqn:Eh;
    [left; eexists; reflexivity|].
  unfold bind, headers_update, get_self, http.
  destruct (dict_update (headers (client w)) hdrs) as [h [[]|e]] eqn:Eu; simpl.
  - right; right. split; [reflexivity|]. split; [|reflexivity].
    destruct data; try discriminate Ed; try reflexivity.
    destruct hdrs; try discriminate Eh. discriminate Eu.
  - right; left. exists e. reflexivity.
Qed.

(** The state after [send_request] does not depend on the gateway. *)
Lemma send_request_state_any_server
    (server' : list request -> request -> result pyval)
    url method data params hdrs w :
  snd (send_request server url method data params hdrs w)
  = snd (send_request server' url method data params hdrs w).
Proof.
  unfold send_request.
  repeat match goal with
         | |- context [if ?b then _ else _] => destruct b
         end; try reflexivity.
  unfold bind, headers_update, get_self, http.
  destruct (dict_update (headers (client w)) hdrs) as [h [[]|e]]; reflexivity.
Qed.

(** What [send_request] adds to the trace. *)
Lemma send_request_sent url method data params hdrs w :
  let w' := snd (send_request server url method data params hdrs w) in
  sent w' = sent w \/
  exists rq, sent w' = (sent w ++ [rq])%list /\
             existsb (String.eqb (req_method rq)) allowed_methods = true /\
             isinstance_dict (req_data rq) = true /\
             req_headers rq = headers (client w').
Proof.
  destruct (send_request_cases url method data params hdrs w)
    as [[e H] | [[e H] | (Hm & Hd & H)]]; rewrite H; simpl; auto.
  right. eexists. split; [reflexivity|]. simpl. auto.
Qed.

End SendRequestCases.

(* ================================================================== *)
(** ** What any call does to the trace and to the client *)

Section CallEffects.

Context {py : Interpreter}.
Variable server : list request -> request -> result pyval.

(** A call either leaves the state as it is or leaves it as one
    [send_request] with the call's headers does. *)
Lemma run_call_is_send_request (c : call) (w : world) :
  run_call server c w = w \/
  exists url method data params,
    run_call server c w
    = snd (send_request server url method data params (call_headers c) w).
Proof.
  destruct c as [url method data params hdrs
                | email amount fn ln tx cur cb cust hdrs
                | transaction hdrs]; unfold run_call, call_headers.
  - right. eauto.
  - destruct (validate_amount amount) as [[]|e] eqn:Ea.
    + destruct (re_match email_pattern email) eqn:Ee.
      * right. rewrite initialize_checked by assumption.
        rewrite construct_request_state. eauto.
      * left. rewrite initialize_bad_email by assumption. reflexivity.
    + left. erewrite initialize_bad_amount by eassumption. reflexivity.
  - left. rewrite verify_stops_at_method_check. reflexivity.
Qed.

Lemma run_call_any_server
    (server' : list request -> request -> result pyval) (c : call) (w : world) :
  run_call server c w = run_call server' c w.
Proof.
  destruct c as [url method data params hdrs
                | email amount fn ln tx cur cb cust hdrs
                | transaction hdrs]; unfold run_call.
  - apply send_request_state_any_server.
  - destruct (validate_amount amount) as [[]|e] eqn:Ea.
    + destruct (re_match email_pattern email) eqn:Ee.
      * rewrite !initialize_checked by assumption.
        rewrite !construct_request_state.
        apply send_request_state_any_server.
      * rewrite !initialize_bad_email by assumption. reflexivity.
    + erewrite !initialize_bad_amount by eassumption. reflexivity.
  - rewrite !verify_stops_at_method_check. reflexivity.
Qed.

Lemma run_call_sent (c : call) (w : world) :
  sent (run_call server c w) = sent w \/
  exists rq, sent (run_call server c w) = (sent w ++ [rq])%list /\
             existsb (String.eqb (req_method rq)) allowed_methods = true /\
             isinstance_dict (req_data rq) = true /\
             req_headers rq = headers (client (run_call server c w)).
Proof.
  destruct (run_call_is_send_request c w) as [H | (url & m & d & p & H)];
    rewrite H; [left; reflexivity|].
  apply send_request_sent.
Qed.

Lemma run_call_config (c : call) (w : world) :
  _key (client (run_call server c w)) = _key (client w) /\
  base_url (client (run_call server c w)) = base_url (client w) /\
  api_version (client (run_call server c w)) = api_version (client w) /\
  response_format (client (run_call server c w)) = response_format (client w).
Proof.
  destruct (run_call_step server c w) as [H | H]; rewrite H; simpl; auto.
Qed.

End CallEffects.

(** X3.  [send_request] cannot make a request without a body: with [data]
    left at [None] every call ends in an exception, whatever the method,
    the params and the headers, and the state is unchanged. *)
Theorem send_request_needs_a_body :
  forall (server : list request -> request -> result pyval)
         (url method : string) (params hdrs : pyval) (w : world),
  exists e : exn,
    send_request server url method PyNone params hdrs w = (Err e, w).
Proof.
  intros. unfold send_request.
  destruct (existsb (String.eqb method) allowed_methods);
    [|eexists; reflexivity]. simpl.
  destruct (is_not_None params && negb (isinstance_dict params));
    [eexists; reflexivity|].
  destruct hdrs; simpl; try (eexists; reflexivity).
  unfold bind. rewrite headers_update_None. eexists; reflexivity.
Qed.

(** X4.  [params] is checked and then never used: a value that is neither
    [None] nor a dict stops the call with its [ValueError] and the state
    unchanged, and a dict for [params] gives the very outcome of the call
    without [params]. *)
Theorem params_checked_but_unused :
  forall (server : list request -> request -> result pyval)
         (url method : string) (data params hdrs : pyval) (w : world),
    (method = "post" \/ method = "put" ->
     is_not_None params = true -> isinstance_dict params = false ->
     send_request server url method data params hdrs w
     = (Err (ValueError "params must be a dict"), w)) /\
    (forall p : dict,
        send_request server url method data (PyDict p) hdrs w
        = send_request server url method data PyNone hdrs w).
Proof.
  intros. split.
  - intros Hm H1 H2. apply send_request_bad_params; auto.
    apply allowed_methods_spec. exact Hm.
  - intros p. reflexivity.
Qed.

Lemma params_checked_but_unused_witness :
  send_request (constant_server sample_answer) "u" "put" (PyDict [])
    (PyStr "page=1") (PyDict []) (empty_world sample_client)
  = (Err (ValueError "params must be a dict"), empty_world sample_client) /\
  send_request (constant_server sample_answer) "u" "put" (PyDict [])
    (PyDict [(PyStr "page", PyInt 1)]) (PyDict []) (empty_world sample_client)
  = send_request (constant_server sample_answer) "u" "put" (PyDict [])
      PyNone (PyDict []) (empty_world sample_client).
Proof.
  destruct (params_checked_but_unused (constant_server sample_answer) "u" "put"
              (PyDict []) (PyStr "page=1") (PyDict [])
              (empty_world sample_client)) as [Hbad Hgood].
  split; [apply Hbad; [right|..]; reflexivity | apply Hgood].
Defined.

(** X5.  Calls only ever append to the trace, one request at most per call:
    after any sequence of calls the requests made before are still there, in
    order, followed by no more new requests than there were calls. *)
Theorem calls_append_at_most_one_request_each {py : Interpreter} :
  forall (server : list request -> request -> result pyval)
         (calls : list call) (w : world),
  exists new : list request,
    sent (run_calls server calls w) = (sent w ++ new)%list /\
    (List.length new <= List.length calls)%nat.
Proof.
  intros server calls. induction calls as [|c cs IH]; intros w; simpl.
  - exists []. rewrite app_nil_r. split; [reflexivity | apply Nat.le_refl].
  - destruct (IH (run_call server c w)) as (new & Hn & Hl).
    destruct (run_call_sent server c w) as [H | (rq & H & _)];
      rewrite H in Hn.
    + exists new. split; [exact Hn|]. apply Nat.le_trans with (1 := Hl).
      apply Nat.le_succ_diag_r.
    + exists (rq :: new). rewrite <- app_assoc in Hn. split; [exact Hn|].
      simpl. apply le_n_S. exact Hl.
Qed.

Lemma requests_in_order_kept {py : Interpreter}
    (server : list request -> request -> result pyval)
    (calls : list call) (w : world) :
  dict_has (headers (client w)) "Authorization" = true ->
  forallb request_in_order (sent w) = true ->
  forallb request_in_order (sent (run_calls server calls w)) = true.
Proof.
  revert w. induction calls as [|c cs IH]; intros w Ha Hs; simpl.
  - exact Hs.
  - pose proof (run_call_step server c w) as Hstep.
    assert (Ha' : dict_has (headers (client (run_call server c w)))
                    "Authorization" = true)
      by (eapply headers_step_has; eassumption).
    apply IH; [exact Ha'|].
    destruct (run_call_sent server c w) as [H | (rq & H & Hm & Hd & Hh)];
      rewrite H; [exact Hs|].
    rewrite forallb_app, Hs. simpl. unfold request_in_order.
    rewrite Hm, Hd, Hh, Ha'. reflexivity.
Qed.

(** X6.  Whatever the calls and their arguments, every request a
    constructed client hands to the network has method [post] or [put], a
    dict for its body, and an [Authorization] header. *)
Theorem every_request_is_in_order {py : Interpreter} :
  forall (server : list request -> request -> result pyval)
         (secret base_ur version fmt : string) (c : Chapa) (calls : list call),
    __init__ secret base_ur version fmt = Ok c ->
    forallb request_in_order (sent (run_calls server calls (empty_world c)))
    = true.
Proof.
  intros server secret base_ur version fmt c calls Hinit.
  destruct (init_headers secret base_ur version fmt c Hinit) as [_ Hh].
  apply requests_in_order_kept; simpl; [rewrite Hh|]; reflexivity.
Qed.

Lemma every_request_is_in_order_witness :
  __init__ "sk_test_x" default_base_ur default_api_version "json"
  = Ok sample_client /\
  forallb request_in_order
    (sent (run_calls (constant_server sample_answer)
             [Call_verify "tx1" (PyDict []);
              Call_send_request "u" "put" (PyDict [(PyStr "k", PyInt 1)]) PyNone
                (PyList [PyStr "ab"]);
              Call_initialize "a@b.com" (PyStr "12.5") "A" "B" "tx1"
                default_currency None None (PyDict [])]
             (empty_world sample_client)))
  = true /\
  List.length
    (sent (run_calls (constant_server sample_answer)
             [Call_verify "tx1" (PyDict []);
              Call_send_request "u" "put" (PyDict [(PyStr "k", PyInt 1)]) PyNone
                (PyList [PyStr "ab"]);
              Call_initialize "a@b.com" (PyStr "12.5") "A" "B" "tx1"
                default_currency None None (PyDict [])]
             (empty_world sample_client)))
  = 2%nat.
Proof.
  split; [reflexivity|]. split; [|vm_compute; reflexivity].
  apply (every_request_is_in_order (constant_server sample_answer)
           "sk_test_x" default_base_ur default_api_version "json" sample_client).
  reflexivity.
Defined.

(** X7.  No sequence of calls changes the client's configuration or drops
    a header: the secret, the base URL, the API version and the response
    format stay as they were, and every key the headers had is still
    there. *)
Theorem calls_keep_configuration_and_header_keys {py : Interpreter} :
  forall (server : list request -> request -> result pyval)
         (calls : list call) (w : world),
    _key (client (run_calls server calls w)) = _key (client w) /\
    base_url (client (run_calls server calls w)) = base_url (client w) /\
    api_version (client (run_calls server calls w)) = api_version (client w) /\
    response_format (client (run_calls server calls w))
    = response_format (client w) /\
    (forall k : string,
        dict_has (headers (client w)) k = true ->
        dict_has (headers (client (run_calls server calls w))) k = true).
Proof.
  intros server calls. induction calls as [|c cs IH]; intros w; simpl.
  - repeat split; auto.
  - destruct (IH (run_call server c w)) as (H1 & H2 & H3 & H4 & H5).
    destruct (run_call_config server c w) as (G1 & G2 & G3 & G4).
    rewrite H1, H2, H3, H4, G1, G2, G3, G4. repeat split.
    intros k Hk. apply H5.
    eapply headers_step_has; [apply run_call_step | exact Hk].
Qed.

(** X8.  What the gateway answers has no bearing on what the client does
    next: the client and the requests made after any sequence of calls are
    the same under any two gateways. *)
Theorem state_independent_of_answers {py : Interpreter} :
  forall (server server' : list request -> request -> result pyval)
         (calls : list call) (w : world),
    run_calls server calls w = run_calls server' calls w.
Proof.
  intros server server' calls. induction calls as [|c cs IH]; intros w; simpl.
  - reflexivity.
  - rewrite (run_call_any_server server server' c w). apply IH.
Qed.

(* ================================================================== *)
(** ** How extra headers are merged *)

Lemma key_mem_congr (a b : pyval) (l : list pyval) :
  key_eqb a b = true -> key_mem a l = key_mem b l.
Proof.
  intros H. induction l as [|x l IH]; simpl; [reflexivity|].
  rewrite IH, (key_eqb_sym x a), (key_eqb_sym x b), (key_eqb_congr a b x H).
  reflexivity.
Qed.

Lemma dict_get_absent (d : dict) (k : pyval) :
  key_mem k (map fst d) = false -> dict_get d k = None.
Proof.
  induction d as [|[k0 v0] r IH]; simpl; [reflexivity|].
  intros H. apply orb_false_iff in H. destruct H as [H1 H2].
  rewrite H1. apply IH. exact H2.
Qed.

(** Looking a key up after [d.update(o)]: the entry of [o] if it has one,
    else the entry of [d]. *)
Lemma dict_get_merge (o d : dict) (k : pyval) :
  keys_distinct (map fst o) = true ->
  dict_get (dict_merge d o) k
  = match dict_get o k with
    | Some v => Some v
    | None => dict_get d k
    end.
Proof.
  unfold dict_merge. revert d.
  induction o as [|[k0 v0] r IH]; simpl; intros d H; [reflexivity|].
  apply andb_true_iff in H. destruct H as [H0 Hr].
  apply negb_true_iff in H0.
  rewrite IH by exact Hr. rewrite dict_get_set.
  destruct (key_eqb k0 k) eqn:E.
  - rewrite (key_mem_congr k0 k _ E) in H0.
    rewrite (dict_get_absent r k H0). reflexivity.
  - reflexivity.
Qed.

(** X9.  In the request [send_request] makes, a header the caller supplied
    wins over the client's header of the same name, and every other header
    of the client goes along unchanged. *)
Theorem caller_headers_override_client_headers :
  forall (server : list request -> request -> result pyval)
         (url method : string) (d : dict) (params : pyval) (o : dict)
         (w : world),
    method = "post" \/ method = "put" ->
    params = PyNone \/ isinstance_dict params = true ->
    keys_distinct (map fst o) = true ->
    exists rq : request,
      sent (snd (send_request server url method (PyDict d) params (PyDict o) w))
      = (sent w ++ [rq])%list /\
      req_method rq = method /\ req_url rq = url /\ req_data rq = PyDict d /\
      forall k : string,
        dict_get (req_headers rq) k
        = match dict_get o k with
          | Some v => Some v
          | None => dict_get (headers (client w)) k
          end.
Proof.
  intros server url method d params o w Hm Hp Ho.
  rewrite send_request_dicts.
  - eexists. split; [reflexivity|]. simpl. repeat split.
    intros k. apply dict_get_merge. exact Ho.
  - apply allowed_methods_spec. exact Hm.
  - destruct Hp as [-> | Hp]; [reflexivity|]. rewrite Hp. apply andb_false_r.
Qed.

Lemma caller_headers_override_client_headers_witness :
  exists rq : request,
    sent (snd (send_request (constant_server sample_answer) "u" "post"
                 (PyDict []) PyNone
                 (PyDict [(PyStr "Accept", PyStr "application/json");
                          (PyStr "Authorization", PyStr "Bearer other")])
                 (empty_world sample_client)))
    = [rq] /\
    dict_get (req_headers rq) "Authorization" = Some (PyStr "Bearer other") /\
    dict_get (req_headers rq) "Accept" = Some (PyStr "application/json") /\
    dict_get (req_headers rq) "Host" = None.
Proof.
  destruct (caller_headers_override_client_headers
              (constant_server sample_answer) "u" "post" [] PyNone
              [(PyStr "Accept", PyStr "application/json");
               (PyStr "Authorization", PyStr "Bearer other")]
              (empty_world sample_client))
    as (rq & Hs & _ & _ & _ & Hk);
    [left; reflexivity | left; reflexivity | reflexivity |].
  exists rq. split; [exact Hs|].
  rewrite !Hk. repeat split.
Defined.

(** X10.  Extra headers outlive their call: after a call made with
    headers [o1], the next call, made with headers [o2], is sent with the
    client's headers, then [o1], then [o2] merged, although [o1] was meant
    for the first call. *)
Theorem extra_headers_persist_across_calls {py : Interpreter} :
  forall (server : list request -> request -> result pyval)
         (url1 url2 method1 method2 : string) (d1 d2 o1 o2 : dict) (w : world),
    method1 = "post" \/ method1 = "put" ->
    method2 = "post" \/ method2 = "put" ->
    sent (run_calls server
            [Call_send_request url1 method1 (PyDict d1) PyNone (PyDict o1);
             Call_send_request url2 method2 (PyDict d2) PyNone (PyDict o2)] w)
    = (sent w ++
       [{| req_method := method1; req_url := url1; req_data := PyDict d1;
           req_headers := dict_merge (headers (client w)) o1 |};
        {| req_method := method2; req_url := url2; req_data := PyDict d2;
           req_headers := dict_merge (dict_merge (headers (client w)) o1) o2 |}])%list.
Proof.
  intros server url1 url2 m1 m2 d1 d2 o1 o2 w H1 H2.
  apply allowed_methods_spec in H1, H2.
  unfold run_calls, run_call. simpl fold_left.
  rewrite (send_request_dicts server url1 m1 d1 PyNone o1 w H1 eq_refl).
  cbn [snd].
  rewrite (send_request_dicts server url2 m2 d2 PyNone o2 _ H2 eq_refl).
  cbn [snd sent client headers with_headers].
  rewrite <- app_assoc. reflexivity.
Qed.

Lemma extra_headers_persist_across_calls_witness :
  map (fun rq => dict_get (req_headers rq) "X-Trace")
    (sent (run_calls (constant_server sample_answer)
             [Call_send_request "u1" "post" (PyDict []) PyNone
                (PyDict [(PyStr "X-Trace", PyStr "1")]);
              Call_send_request "u2" "put" (PyDict []) PyNone (PyDict [])]
             (empty_world sample_client)))
  = [Some (PyStr "1"); Some (PyStr "1")].
Proof.
  rewrite (extra_headers_persist_across_calls (constant_server sample_answer)
             "u1" "u2" "post" "put" [] [] [(PyStr "X-Trace", PyStr "1")] []
             (empty_world sample_client));
    [reflexivity | left; reflexivity | right; reflexivity].
Defined.

(* ================================================================== *)
(** ** Construction *)

(** X11.  [Chapa(...)] succeeds exactly when [response_format] is ['json']
    or ['obj']; any other text, whatever the other arguments, raises the
    [ValueError] of the constructor.  A client that is built keeps the four
    arguments as given and starts with the bearer header as its only
    header. *)
Theorem construction_checks_response_format :
  forall secret base_ur version fmt : string,
    (fmt = "json" \/ fmt = "obj" ->
     __init__ secret base_ur version fmt
     = Ok {| _key := secret; base_url := base_ur; api_version := version;
             response_format := fmt;
             headers := [(PyStr "Authorization", authorization_of secret)] |}) /\
    (fmt <> "json" -> fmt <> "obj" ->
     __init__ secret base_ur version fmt
     = Err (ValueError "response_format must be 'json' or 'obj'")) /\
    (forall c : Chapa,
        __init__ secret base_ur version fmt = Ok c ->
        response_format c = "json" \/ response_format c = "obj").
Proof.
  intros secret base_ur version fmt. unfold __init__.
  destruct (existsb (String.eqb fmt) ["json"; "obj"]) eqn:E.
  - simpl in E. rewrite orb_false_r, orb_true_iff, !String.eqb_eq in E.
    split; [reflexivity|]. split.
    + intros H1 H2. destruct E; contradiction.
    + intros c Hc. injection Hc as <-. exact E.
  - simpl in E. rewrite orb_false_r, orb_false_iff in E.
    destruct E as [E1 E2]. apply String.eqb_neq in E1, E2.
    split; [intros [H | H]; contradiction|].
    split; [reflexivity | discriminate].
Qed.

(* ================================================================== *)
(** ** [convert_response] beyond decoded JSON *)

(** The first element that raises decides what [map_result] raises. *)
Lemma map_result_first_error {A : Type} (f : A -> result A) (e0 : exn)
    (bad : A -> bool) (l : list A) :
  Forall (fun x => (bad x = true -> f x = Err e0) /\
                   (bad x = false -> f x = Ok x)) l ->
  (existsb bad l = true -> map_result f l = Err e0) /\
  (existsb bad l = false -> map_result f l = Ok l).
Proof.
  induction 1 as [|x l [Hb Hg] Hl [IHb IHg]]; simpl.
  - split; [discriminate | reflexivity].
  - destruct (bad x) eqn:Ex; simpl.
    + split; [|discriminate]. intros _. rewrite (Hb eq_refl). reflexivity.
    + rewrite (Hg eq_refl). split.
      * intros Hr. rewrite (IHb Hr). reflexivity.
      * intros Hr. rewrite (IHg Hr). reflexivity.
Qed.

(** What [map_result] raises, one of the elements raised. *)
Lemma map_result_err {A B : Type} (f : A -> result B) (l : list A) (e : exn) :
  map_result f l = Err e -> exists x, In x l /\ f x = Err e.
Proof.
  induction l as [|x l IH]; simpl; [discriminate|].
  destruct (f x) as [y|e'] eqn:Ex.
  - destruct (map_result f l) as [l'|e'']; [discriminate|].
    intros H. injection H as ->.
    destruct (IH eq_refl) as (x' & Hin & Hx'). eauto.
  - intros H. injection H as ->. eauto.
Qed.

Lemma nesting_to_mapping (v : pyval) : nesting (to_mapping v) = nesting v.
Proof.
  induction v as [ | b | z | f | s | l IH | d IH | a IH ] using pyval_ind;
    try reflexivity; simpl; f_equal; rewrite map_map; f_equal.
  - apply map_ext_in. rewrite Forall_forall in IH. exact IH.
  - apply map_ext_in. rewrite Forall_forall in IH. intros kv Hin.
    apply IH, Hin.
  - apply map_ext_in. rewrite Forall_forall in IH. intros kv Hin.
    apply IH, Hin.
Qed.

Section Outcomes.

Context {py : Interpreter}.

(** On a value that is decoded JSON apart from the objects it holds,
    [json.dumps] stops at the first object, and spells the value when there
    is none. *)
Lemma json_dumps_objects (v : pyval) :
  forall level : nat,
    json_shape (to_mapping v) = true ->
    (level + nesting v <= Nat.min dumps_depth default_depth)%nat ->
    (has_object v = true -> json_dumps level v = Err not_serializable) /\
    (has_object v = false -> json_dumps level v = Ok v).
Proof.
  induction v as [ | b | z | f | s | l IH | d IH | a IH ] using pyval_ind;
    intros level Hj Hn;
    try (split; [discriminate | reflexivity]).
  - simpl in Hj. apply negb_true_iff in Hj.
    split; [discriminate|]. intros _. simpl. rewrite Hj. reflexivity.
  - simpl in Hj, Hn. rewrite forallb_forall in Hj.
    assert (Hlt : (level <? dumps_depth)%nat = true) by (apply Nat.ltb_lt; lia).
    destruct (map_result_first_error (json_dumps (S level)) not_serializable
                has_object l) as [Hb Hg].
    { rewrite Forall_forall in *. intros x Hx.
      apply IH; [exact Hx | apply Hj, in_map, Hx |].
      pose proof (nesting_elem nesting l x Hx). lia. }
    simpl. rewrite Hlt. split.
    + intros H. rewrite (Hb H). reflexivity.
    + intros H. rewrite (Hg H). reflexivity.
  - simpl in Hj, Hn.
    apply andb_true_iff in Hj. destruct Hj as [Hj Hv].
    apply andb_true_iff in Hj. destruct Hj as [Hs _].
    rewrite forallb_forall in Hs, Hv.
    assert (Hlt : (level <? dumps_depth)%nat = true) by (apply Nat.ltb_lt; lia).
    destruct (map_result_first_error
                (fun kv =>
                   match json_key (fst kv) with
                   | Ok k =>
                       match json_dumps (S level) (snd kv) with
                       | Ok x => Ok (PyStr k, x)
                       | Err e => Err e
                       end
                   | Err e => Err e
                   end)
                not_serializable (fun kv => has_object (snd kv)) d)
      as [Hb Hg].
    { rewrite Forall_forall in *. intros [k x] Hin.
      pose proof (Hs _ (in_map (fun kv => (fst kv, to_mapping (snd kv))) d _ Hin))
        as Hk.
      pose proof (Hv _ (in_map (fun kv => (fst kv, to_mapping (snd kv))) d _ Hin))
        as Hx.
      simpl in Hk, Hx.
      destruct k; try discriminate Hk. simpl.
      destruct (IH _ Hin (S level) Hx) as [H1 H2].
      { pose proof (nesting_item d _ Hin) as Hle. simpl in Hle |- *. lia. }
      simpl in H1, H2. split.
      - intros H. rewrite (H1 H). reflexivity.
      - intros H. rewrite (H2 H). reflexivity. }
    simpl. rewrite Hlt. split.
    + intros H. rewrite (Hb H). reflexivity.
    + intros H. rewrite (Hg H). reflexivity.
  - simpl in Hn.
    assert (Hlt : (level <? default_depth)%nat = true) by (apply Nat.ltb_lt; lia).
    simpl. rewrite Hlt. split; [reflexivity | discriminate].
Qed.

Lemma json_key_errors (k : pyval) (e : exn) :
  json_key k = Err e -> is_type_error e || is_value_error e = true.
Proof.
  destruct k; simpl; try discriminate;
    try (intros H; injection H as <-; reflexivity).
  destruct (int_too_long z); [|discriminate].
  intros H; injection H as <-; reflexivity.
Qed.

(** [json.dumps] raises nothing but a [TypeError], a [ValueError] or a
    [RecursionError]. *)
Lemma json_dumps_errors (v : pyval) :
  forall (level : nat) (e : exn),
    json_dumps level v = Err e -> json_error e = true.
Proof.
  induction v as [ | b | z | f | s | l IH | d IH | a IH ] using pyval_ind;
    intros level e; simpl; try discriminate.
  - destruct (int_too_long z); [|discriminate].
    intros H; injection H as <-; reflexivity.
  - destruct (level <? dumps_depth)%nat;
      [|intros H; injection H as <-; reflexivity].
    destruct (map_result _ l) as [l'|e'] eqn:E; [discriminate|].
    intros H; injection H as ->.
    apply map_result_err in E. destruct E as (x & Hin & Hx).
    rewrite Forall_forall in IH. exact (IH x Hin _ _ Hx).
  - destruct (level <? dumps_depth)%nat;
      [|intros H; injection H as <-; reflexivity].
    match goal with
    | |- context [map_result ?f d] =>
        destruct (map_result f d) as [d'|e'] eqn:E
    end; [discriminate|].
    intros H; injection H as ->.
    apply map_result_err in E. destruct E as ([k x] & Hin & Hx).
    simpl in Hx.
    destruct (json_key k) as [t|e'] eqn:Ek.
    + destruct (json_dumps (S level) x) as [y|e'] eqn:Ex; [discriminate|].
      injection Hx as ->.
      rewrite Forall_forall in IH. exact (IH _ Hin _ _ Ex).
    + injection Hx as ->. unfold json_error.
      rewrite (json_key_errors k e Ek). reflexivity.
  - destruct (level <? default_depth)%nat;
      intros H; injection H as <-; reflexivity.
Qed.

(** And so does [json.loads], whatever the hook. *)
Lemma json_loads_errors (hook : dict -> pyval) (v : pyval) :
  forall (level : nat) (e : exn),
    json_loads hook level v = Err e -> json_error e = true.
Proof.
  induction v as [ | b | z | f | s | l IH | d IH | a IH ] using pyval_ind;
    intros level e; simpl; try discriminate.
  - destruct (int_too_long z); [|discriminate].
    intros H; injection H as <-; reflexivity.
  - destruct (level <? loads_depth)%nat;
      [|intros H; injection H as <-; reflexivity].
    destruct (map_result _ l) as [l'|e'] eqn:E; [discriminate|].
    intros H; injection H as ->.
    apply map_result_err in E. destruct E as (x & Hin & Hx).
    rewrite Forall_forall in IH. exact (IH x Hin _ _ Hx).
  - destruct (level <? loads_depth)%nat;
      [|intros H; injection H as <-; reflexivity].
    match goal with
    | |- context [map_result ?f d] =>
        destruct (map_result f d) as [d'|e'] eqn:E
    end.
    + destruct (level <? hook_depth)%nat; [discriminate|].
      intros H; injection H as <-; reflexivity.
    + intros H; injection H as ->.
      apply map_result_err in E. destruct E as ([k x] & Hin & Hx).
      simpl in Hx.
      destruct (json_loads hook (S level) x) as [y|e'] eqn:Ex; [discriminate|].
      injection Hx as ->.
      rewrite Forall_forall in IH. exact (IH _ Hin _ _ Ex).
Qed.

(** A dict comes back from the round trip as an object. *)
Lemma json_loads_dumps_dict_is_object (d : dict) (r : pyval) :
  json_loads_dumps Response (PyDict d) = Ok r -> exists a, r = PyResponse a.
Proof.
  unfold json_loads_dumps. simpl.
  destruct (0 <? dumps_depth)%nat; [|discriminate].
  match goal with
  | |- context [map_result ?f d] => destruct (map_result f d) as [d'|e]
  end; [|discriminate].
  simpl.
  destruct (0 <? loads_depth)%nat; [|discriminate].
  match goal with
  | |- context [map_result ?f d'] => destruct (map_result f d') as [d''|e]
  end; [|discriminate].
  destruct (0 <? hook_depth)%nat; [|discriminate].
  intros H. injection H as <-. unfold Response. eauto.
Qed.

End Outcomes.

(** X12.  [convert_response] hands back unchanged whatever is not a dict.
    On a dict it returns a [Response] object or raises, and what it raises
    is a [TypeError], a [ValueError] or a [RecursionError].  On a dict that
    is decoded JSON apart from the [Response] objects it holds, and holds
    them no deeper than [json.dumps] can reach them, it raises the
    [TypeError] of [json.dumps] for an object. *)
Theorem convert_response_error_behaviour {py : Interpreter} :
  forall v : pyval,
    (isinstance_dict v = false -> convert_response v = Ok v) /\
    (isinstance_dict v = true ->
     (exists a : dict, convert_response v = Ok (PyResponse a)) \/
     (exists e : exn, convert_response v = Err e /\ json_error e = true)) /\
    (isinstance_dict v = true -> has_object v = true ->
     is_json (to_mapping v) = true -> (nesting v <= default_depth)%nat ->
     convert_response v = Err not_serializable).
Proof.
  intros v. unfold convert_response.
  destruct (isinstance_dict v) eqn:Ed; simpl.
  - split; [discriminate|]. split.
    + intros _. destruct v; try discriminate Ed.
      destruct (json_loads_dumps Response (PyDict d)) as [r|e] eqn:E.
      * left. destruct (json_loads_dumps_dict_is_object d r E) as [a ->].
        exists a. reflexivity.
      * right. exists e. split; [reflexivity|].
        unfold json_loads_dumps in E.
        destruct (json_dumps 0 (PyDict d)) as [text|e'] eqn:E1.
        -- exact (json_loads_errors Response text _ _ E).
        -- injection E as <-. exact (json_dumps_errors _ _ _ E1).
    + intros _ Ho Hj Hn. apply is_json_parts in Hj.
      destruct Hj as (Hs & Hd & _). rewrite nesting_to_mapping in Hd.
      unfold json_loads_dumps.
      destruct (json_dumps_objects v 0%nat Hs) as [Hb _]; [simpl; lia|].
      rewrite (Hb Ho). reflexivity.
  - split; [reflexivity|]. split; discriminate.
Qed.

Lemma convert_response_error_behaviour_witness :
  convert_response (PyList [PyDict []]) = Ok (PyList [PyDict []]) /\
  ((exists a : dict,
       convert_response (PyDict [(PyInt 1, PyStr "a"); (PyStr "1", PyStr "b")])
       = Ok (PyResponse a)) \/
   (exists e : exn,
       convert_response (PyDict [(PyInt 1, PyStr "a"); (PyStr "1", PyStr "b")])
       = Err e /\ json_error e = true)) /\
  convert_response
    (PyDict [(PyStr "data", PyList [PyInt 1; PyResponse [(PyStr "a", PyNone)]])])
  = Err not_serializable.
Proof.
  split; [|split].
  - apply (convert_response_error_behaviour (PyList [PyDict []])).
    reflexivity.
  - apply (convert_response_error_behaviour
             (PyDict [(PyInt 1, PyStr "a"); (PyStr "1", PyStr "b")])).
    reflexivity.
  - apply (convert_response_error_behaviour
             (PyDict [(PyStr "data",
                       PyList [PyInt 1; PyResponse [(PyStr "a", PyNone)]])]));
      [reflexivity | reflexivity | reflexivity | vm_compute; lia].
Defined.

(** X13.  Converting twice is converting once: what [convert_response]
    returns is returned unchanged by a second [convert_response]. *)
Theorem convert_response_idempotent {py : Interpreter} :
  forall v r : pyval,
    convert_response v = Ok r -> convert_response r = Ok r.
Proof.
  intros v r H. unfold convert_response in H.
  destruct (isinstance_dict v) eqn:Ed; simpl in H.
  - destruct v; try discriminate Ed.
    destruct (json_loads_dumps_dict_is_object d r H) as [a ->]. reflexivity.
  - injection H as <-. unfold convert_response. rewrite Ed. reflexivity.
Qed.

Lemma convert_response_idempotent_witness :
  exists r : pyval,
    convert_response nested_answer = Ok r /\ convert_response r = Ok r.
Proof.
  eexists. split; [reflexivity|].
  apply (convert_response_idempotent nested_answer). reflexivity.
Defined.

(** A value of the shape of decoded JSON reads back as itself. *)
Lemma to_mapping_json {py : Interpreter} (v : pyval) :
  json_shape v = true -> to_mapping v = v.
Proof.
  induction v as [ | b | z | f | s | l IH | d IH | a IH ] using pyval_ind;
    intros Hj; try reflexivity.
  - simpl in *. rewrite forallb_forall in Hj. f_equal.
    induction IH as [|x l Hx Hl IHl]; simpl; [reflexivity|].
    rewrite Hx by (apply Hj; left; reflexivity).
    rewrite IHl by (intros y Hy; apply Hj; right; exact Hy). reflexivity.
  - simpl in *. apply andb_true_iff in Hj. destruct Hj as [_ Hj].
    rewrite forallb_forall in Hj. f_equal.
    induction IH as [|[k x] d Hx Hd IHd]; simpl; [reflexivity|].
    simpl in Hx. rewrite Hx by (apply (Hj (k, x)); left; reflexivity).
    rewrite IHd by (intros y Hy; apply Hj; right; exact Hy). reflexivity.
  - discriminate Hj.
Qed.

(** X14.  [convert_response] loses nothing: two different decoded JSON
    values never convert to the same result. *)
Theorem convert_response_injective_on_json {py : Interpreter} :
  forall v1 v2 : pyval,
    is_json v1 = true -> is_json v2 = true -> v1 <> v2 ->
    convert_response v1 <> convert_response v2.
Proof.
  intros v1 v2 H1 H2 Hne H. apply Hne.
  assert (Hconv : forall v, is_json v = true ->
            exists r, convert_response v = Ok r /\ to_mapping r = v).
  { intros v Hv. unfold convert_response.
    destruct (isinstance_dict v); simpl.
    - destruct (json_loads_dumps_adapts v Hv) as (r & Hr & Hm & _). eauto.
    - exists v. split; [reflexivity|].
      apply to_mapping_json. apply is_json_parts in Hv. apply Hv. }
  destruct (Hconv v1 H1) as (r1 & Hr1 & Hm1).
  destruct (Hconv v2 H2) as (r2 & Hr2 & Hm2).
  rewrite Hr1, Hr2 in H. injection H as ->. congruence.
Qed.

Lemma convert_response_injective_on_json_witness :
  is_json nested_answer = true /\ is_json sample_answer = true /\
  nested_answer <> sample_answer /\
  convert_response nested_answer <> convert_response sample_answer.
Proof.
  split; [reflexivity|]. split; [reflexivity|]. split; [discriminate|].
  apply (convert_response_injective_on_json nested_answer sample_answer);
    [reflexivity | reflexivity | discriminate].
Defined.

(* ================================================================== *)
(** ** More on the amount check *)



(** A text of zeros and points that gets past the [isdigit] test reads as
    zero. *)
Lemma read_decimal_zeros (s : string) :
  forall (seen_point : bool) (frac : Z),
    str_forall char_zero_or_point s = true ->
    str_forall char_isdigit
      (if seen_point then s else str_remove_first "." s) = true ->
    exists k, read_decimal s seen_point 0 frac = Some (0, k).
Proof.
  induction s as [|c s IH]; intros sp frac Hz Hd.
  - exists frac. reflexivity.
  - simpl in Hz. apply andb_true_iff in Hz. destruct Hz as [Hc Hz].
    unfold char_zero_or_point in Hc. apply orb_true_iff in Hc.
    destruct Hc as [Hc | Hc]; apply Ascii.eqb_eq in Hc; subst c.
    + cbn [read_decimal]. change (Ascii.eqb "0" ".") with false.
      change (char_isdecimal "0") with true. cbv iota.
      change (10 * 0 + Z.of_N (N_of_ascii "0" - 48)) with 0.
      apply IH; [exact Hz|].
      destruct sp; simpl in Hd; exact Hd.
    + cbn [read_decimal]. change (Ascii.eqb "." ".") with true. cbv iota.
      destruct sp; [discriminate Hd|].
      apply IH; [exact Hz | exact Hd].
Qed.

(** X16.  Zero is accepted as an integer only: [0] passes, while every text
    made of zeros and points (['0'], ['0.0'], ['000'], ...) and both float
    zeros raise the amount error. *)
Theorem zero_passes_only_as_int :
  validate_amount (PyInt 0) = Ok tt /\
  (forall s : string,
      str_forall char_zero_or_point s = true ->
      validate_amount (PyStr s) = Err InvalidAmountError) /\
  (forall sg : bool,
      validate_amount (PyFloat (S754_zero sg)) = Err InvalidAmountError).
Proof.
  split; [reflexivity|]. split.
  - intros s Hz. unfold validate_amount.
    cbn [isinstance_int negb py_str].
    destruct (str_isdigit (str_remove_first "." s)) eqn:E; [|reflexivity].
    pose proof E as E'. apply str_isdigit_spec in E'. destruct E' as [_ Hd].
    destruct (read_decimal_zeros s false 0 Hz Hd) as [k Hk].
    unfold float_gt_zero_of. rewrite E, Hk, Z.mul_0_l.
    assert (Hp : (10 ^ k <? 0) = false)
      by (apply Z.ltb_ge, Z.pow_nonneg; lia).
    rewrite Hp. reflexivity.
  - intros sg. destruct sg; reflexivity.
Qed.

(** An ASCII digit is a digit, is not the point, and has a value from 0
    to 9 that is zero for the character [0] alone. *)
Lemma decimal_digit_facts (c : ascii) :
  char_isdecimal c = true ->
  char_isdigit c = true /\
  Ascii.eqb c "." = false /\
  0 <= Z.of_N (N_of_ascii c - 48) <= 9 /\
  (Ascii.eqb "0" c = true <-> Z.of_N (N_of_ascii c - 48) = 0).
Proof.
  intros H.
  destruct c as [[|] [|] [|] [|] [|] [|] [|] [|]]; try discriminate H;
    (split; [reflexivity|]; split; [reflexivity|]; split;
     [vm_compute; split; discriminate|];
     split; intros E; try reflexivity; discriminate E).
Qed.

(** A run of ASCII digits reads as the number it spells, which is above
    zero exactly when the digits read so far were, or one of the run is
    not [0]. *)
Lemma read_decimal_digits (s : string) :
  forall acc : Z,
    0 <= acc ->
    str_forall char_isdecimal s = true ->
    exists n : Z,
      read_decimal s false acc 0 = Some (n, 0) /\
      0 <= n /\
      (0 < n <-> 0 < acc \/ str_forall (Ascii.eqb "0") s = false).
Proof.
  induction s as [|c s IH]; intros acc Hacc Hs.
  - exists acc. split; [reflexivity|]. split; [exact Hacc|].
    simpl. split; [auto | intros [H | H]; [exact H | discriminate H]].
  - simpl in Hs. apply andb_true_iff in Hs. destruct Hs as [Hc Hs].
    destruct (decimal_digit_facts c Hc) as (_ & Hp & Hv & Hz).
    cbn [read_decimal]. rewrite Hp, Hc.
    destruct (IH (10 * acc + Z.of_N (N_of_ascii c - 48))) as (n & Hn & Hn0 & Hiff);
      [lia | exact Hs |].
    exists n. split; [exact Hn|]. split; [exact Hn0|].
    rewrite Hiff. cbn [str_forall].
    destruct (Ascii.eqb "0" c) eqn:E; cbn [andb].
    + rewrite (proj1 Hz eq_refl). split; intros [H | H]; auto; left; lia.
    + assert (Z.of_N (N_of_ascii c - 48) <> 0)
        by (intros H0; apply (proj2 Hz) in H0; discriminate H0).
      split; intros _; [right; reflexivity | left; lia].
Qed.

Lemma str_forall_decimal_digit (s : string) :
  str_forall char_isdecimal s = true -> str_forall char_isdigit s = true.
Proof.
  induction s as [|c s IH]; simpl; [reflexivity|].
  intros H. apply andb_true_iff in H. destruct H as [Hc Hs].
  destruct (decimal_digit_facts c Hc) as [Hd _].
  rewrite Hd, IH by exact Hs. reflexivity.
Qed.

(** X17.  A text of ASCII digits, of any length and with any number of
    leading zeros, passes the amount check exactly when one of its digits is
    not [0]; otherwise it raises the amount error. *)
Theorem digit_text_passes_unless_all_zeros :
  forall s : string,
    s <> "" ->
    str_forall char_isdecimal s = true ->
    (str_forall (Ascii.eqb "0") s = false -> validate_amount (PyStr s) = Ok tt) /\
    (str_forall (Ascii.eqb "0") s = true ->
     validate_amount (PyStr s) = Err InvalidAmountError).
Proof.
  intros s Hne Hs.
  pose proof (str_forall_decimal_digit s Hs) as Hd.
  assert (E : str_isdigit (str_remove_first "." s) = true).
  { rewrite remove_point_digits by exact Hd.
    apply str_isdigit_spec. split; assumption. }
  destruct (read_decimal_digits s 0 (Z.le_refl 0) Hs) as (n & Hn & Hn0 & Hiff).
  assert (Hpow : 1 < 2 ^ 1075) by (apply Z.pow_gt_1; lia).
  unfold validate_amount. cbn [isinstance_int negb py_str]. rewrite E.
  unfold float_gt_zero_of. rewrite E, Hn.
  change (10 ^ 0) with 1.
  remember (2 ^ 1075) as P eqn:EP. clear EP.
  split; intros Hz.
  - assert (0 < n) by (apply Hiff; right; exact Hz).
    assert (Hlt : (1 <? n * P) = true) by (apply Z.ltb_lt; nia).
    rewrite Hlt. reflexivity.
  - assert (n = 0).
    { destruct (Z.eq_dec n 0) as [H0 | H0]; [exact H0|].
      assert (Hpos : 0 < n) by lia. apply Hiff in Hpos.
      destruct Hpos as [Hpos | Hpos]; [lia | congruence]. }
    subst n. rewrite Z.mul_0_l. reflexivity.
Qed.

Lemma digit_text_passes_unless_all_zeros_witness :
  validate_amount (PyStr "000120") = Ok tt /\
  validate_amount (PyStr "0000") = Err InvalidAmountError.
Proof.
  split.
  - apply (digit_text_passes_unless_all_zeros "000120");
      [discriminate | reflexivity | reflexivity].
  - apply (digit_text_passes_unless_all_zeros "0000");
      [discriminate | reflexivity | reflexivity].
Defined.

(* ================================================================== *)
(** ** More on the email check *)

Lemma str_contains_char_app (c : ascii) (a b : string) :
  str_contains_char c (a ++ b) = str_contains_char c a || str_contains_char c b.
Proof.
  induction a as [|x a IH]; simpl; [reflexivity|].
  rewrite IH, orb_assoc. reflexivity.
Qed.

Lemma str_app_assoc (a b c : string) : (a ++ b) ++ c = a ++ (b ++ c).
Proof.
  induction a as [|x a IH]; simpl; [reflexivity | rewrite IH; reflexivity].
Qed.

(** A text with the email shape has an at sign and a point, and does not
    begin with the at sign. *)
Lemma email_shape_needs (email : string) :
  matches_email_pattern email ->
  str_contains_char "@" email = true /\
  str_contains_char "." email = true /\
  forall rest, email <> String "@" rest.
Proof.
  intros (l & d & t & q & -> & Hl & Hla & _).
  split; [|split].
  - rewrite str_contains_char_app. simpl. apply orb_true_r.
  - rewrite !str_contains_char_app. simpl.
    rewrite ?orb_true_r. reflexivity.
  - intros rest E. destruct l as [|c l]; [contradiction|].
    simpl in E. injection E as -> _.
    unfold no_at in Hla. simpl in Hla. discriminate Hla.
Qed.

(** X18.  Once the amount has passed, [initialize] raises the email error,
    with the state unchanged, for every email without an at sign, for every
    email without a point, and for every email that begins with an at
    sign. *)
Theorem emails_always_refused {py : Interpreter} :
  forall (server : list request -> request -> result pyval)
         (email : string) (amount : pyval)
         (first_name last_name tx_ref currency : string)
         (callback_url : option string) (customization : option dict)
         (hdrs : pyval) (w : world),
    validate_amount amount = Ok tt ->
    str_contains_char "@" email = false \/
    str_contains_char "." email = false \/
    (exists rest : string, email = String "@" rest) ->
    initialize server email amount first_name last_name tx_ref currency
      callback_url customization hdrs w
    = (Err InvalidEmailError, w).
Proof.
  intros server email amount fn ln tx cur cb cust hdrs w Ha He.
  apply initialize_bad_email; [exact Ha|].
  apply re_match_email_false. intros Hm.
  destruct (email_shape_needs email Hm) as (H1 & H2 & H3).
  destruct He as [He | [He | [rest He]]];
    [congruence | congruence | exact (H3 rest He)].
Qed.

Lemma emails_always_refused_witness :
  initialize (constant_server sample_answer) "user.example.com" (PyInt 100)
    "A" "B" "tx1" default_currency None None (PyDict [])
    (empty_world sample_client)
  = (Err InvalidEmailError, empty_world sample_client) /\
  initialize (constant_server sample_answer) "@example.com" (PyInt 100)
    "A" "B" "tx1" default_currency None None (PyDict [])
    (empty_world sample_client)
  = (Err InvalidEmailError, empty_world sample_client).
Proof.
  split.
  - apply (emails_always_refused (constant_server sample_answer)
             "user.example.com" (PyInt 100) "A" "B" "tx1" default_currency
             None None (PyDict []) (empty_world sample_client));
      [reflexivity | left; reflexivity].
  - apply (emails_always_refused (constant_server sample_answer)
             "@example.com" (PyInt 100) "A" "B" "tx1" default_currency
             None None (PyDict []) (empty_world sample_client));
      [reflexivity | right; right; eexists; reflexivity].
Defined.

(** X19.  The email check reads only the start of the text: an email that
    passes still passes with anything appended to it, a second at sign
    included, and [initialize] then sends the extended text as the email. *)
Theorem accepted_email_stays_accepted_when_extended {py : Interpreter} :
  forall (server : list request -> request -> result pyval)
         (email rest : string) (amount : pyval)
         (first_name last_name tx_ref currency : string)
         (callback_url : option string) (customization : option dict)
         (o : dict) (w : world),
    re_match email_pattern email = true ->
    validate_amount amount = Ok tt ->
    re_match email_pattern (email ++ rest) = true /\
    exists rq : request,
      sent (snd (initialize server (email ++ rest) amount first_name last_name
                   tx_ref currency callback_url customization (PyDict o) w))
      = (sent w ++ [rq])%list /\
      req_data rq
      = PyDict (initialize_body (email ++ rest) amount first_name last_name
                  tx_ref currency callback_url customization).
Proof.
  intros server email rest amount fn ln tx cur cb cust o w H Ha.
  assert (H' : re_match email_pattern (email ++ rest) = true).
  { apply re_match_email_spec in H. apply re_match_email_spec.
    destruct H as (l & d & t & q & -> & Hrest).
    exists l, d, t, (q ++ rest). split; [|exact Hrest].
    rewrite !str_app_assoc. reflexivity. }
  split; [exact H'|].
  rewrite initialize_checked by assumption.
  rewrite construct_request_state.
  rewrite send_request_dicts by reflexivity.
  eexists. split; reflexivity.
Qed.

Lemma accepted_email_stays_accepted_when_extended_witness :
  re_match email_pattern "a@b.com" = true /\
  re_match email_pattern ("a@b.com" ++ "@@ not an email") = true /\
  List.length
    (sent (snd (initialize (constant_server sample_answer)
                  ("a@b.com" ++ "@@ not an email") (PyInt 100) "A" "B" "tx1"
                  default_currency None None (PyDict [])
                  (empty_world sample_client))))
  = 1%nat.
Proof.
  split; [reflexivity|].
  destruct (accepted_email_stays_accepted_when_extended
              (constant_server sample_answer) "a@b.com" "@@ not an email"
              (PyInt 100) "A" "B" "tx1" default_currency None None []
              (empty_world sample_client) eq_refl eq_refl)
    as (Hm & rq & Hs & _).
  split; [exact Hm|]. rewrite Hs. reflexivity.
Defined.

(* ================================================================== *)
(** ** The request [initialize] makes *)

(** X1.  With an amount and an email that pass and a dict for [headers],
    [initialize] makes exactly one request, on whatever client and after
    whatever earlier requests: a POST to
    [base_url/api_version/transaction/initialize] carrying the form body and
    the client's headers with the caller's merged in; the merged headers
    stay on the client, and the result is the gateway's answer, converted
    when the format is ['obj'] and the answer is a dict, or the exception
    the transport raised. *)
Theorem initialize_makes_one_post {py : Interpreter} :
  forall (server : list request -> request -> result pyval)
         (email : string) (amount : pyval)
         (first_name last_name tx_ref currency : string)
         (callback_url : option string) (customization : option dict)
         (o : dict) (w : world),
    validate_amount amount = Ok tt ->
    re_match email_pattern email = true ->
    let rq :=
      {| req_method := "post";
         req_url := base_url (client w) ++ "/" ++ api_version (client w)
                      ++ "/transaction/initialize";
         req_data := PyDict (initialize_body email amount first_name last_name
                               tx_ref currency callback_url customization);
         req_headers := dict_merge (headers (client w)) o |} in
    initialize server email amount first_name last_name tx_ref currency
      callback_url customization (PyDict o) w
    = (adapt_answer (response_format (client w)) (server (sent w) rq),
       {| client := with_headers (client w) (dict_merge (headers (client w)) o);
          sent := (sent w ++ [rq])%list |}).
Proof.
  intros server email amount fn ln tx cur cb cust o w Ha He rq.
  rewrite initialize_checked by assumption.
  unfold _construct_request, bind.
  rewrite send_request_dicts by reflexivity.
  fold rq. unfold adapt_answer.
  destruct (server (sent w) rq) as [res|e]; [|reflexivity].
  simpl.
  destruct (String.eqb (response_format (client w)) "obj" && isinstance_dict res);
    reflexivity.
Qed.

Lemma initialize_makes_one_post_witness :
  validate_amount (PyStr "12.5") = Ok tt /\
  re_match email_pattern "a@b.com" = true /\
  fst (initialize (constant_server nested_answer) "a@b.com" (PyStr "12.5")
         "A" "B" "tx1" default_currency (Some "https://shop.example/done")
         (Some [(PyStr "title", PyStr "T")]) (PyDict [(PyStr "X-Trace", PyStr "1")])
         (empty_world sample_object_client))
  = convert_response nested_answer /\
  List.length
    (sent (snd (initialize (constant_server nested_answer) "a@b.com"
                  (PyStr "12.5") "A" "B" "tx1" default_currency
                  (Some "https://shop.example/done")
                  (Some [(PyStr "title", PyStr "T")]) (PyDict [(PyStr "X-Trace", PyStr "1")])
                  (empty_world sample_object_client))))
  = 1%nat.
Proof.
  assert (Ha : validate_amount (PyStr "12.5") = Ok tt)
    by (vm_compute; reflexivity).
  split; [exact Ha|]. split; [reflexivity|].
  rewrite (initialize_makes_one_post (constant_server nested_answer) "a@b.com"
             (PyStr "12.5") "A" "B" "tx1" default_currency
             (Some "https://shop.example/done") (Some [(PyStr "title", PyStr "T")])
             [(PyStr "X-Trace", PyStr "1")] (empty_world sample_object_client)
             Ha eq_refl).
  split; reflexivity.
Defined.

Lemma dict_set_keys (d : dict) (k v : pyval) :
  map fst (dict_set d k v)
  = if key_mem k (map fst d) then map fst d else (map fst d ++ [k])%list.
Proof.
  induction d as [|[k0 v0] r IH]; simpl; [reflexivity|].
  destruct (key_eqb k0 k); simpl; [reflexivity|].
  rewrite IH. destruct (key_mem k (map fst r)); reflexivity.
Qed.

Lemma keys_distinct_snoc (l : list pyval) (k : pyval) :
  keys_distinct l = true -> key_mem k l = false ->
  keys_distinct (l ++ [k])%list = true.
Proof.
  induction l as [|x l IH]; simpl; intros Hd Hk; [reflexivity|].
  apply andb_true_iff in Hd. destruct Hd as [Hx Hl].
  apply orb_false_iff in Hk. destruct Hk as [Hxk Hkl].
  rewrite key_mem_app, IH by assumption. simpl.
  apply negb_true_iff in Hx.
  rewrite Hx, (key_eqb_sym k x), Hxk. reflexivity.
Qed.

Lemma keys_distinct_set (d : dict) (k : pyval) (v : pyval) :
  keys_distinct (map fst d) = true ->
  keys_distinct (map fst (dict_set d k v)) = true.
Proof.
  intros H. rewrite dict_set_keys.
  destruct (key_mem k (map fst d)) eqn:E; [exact H|].
  apply keys_distinct_snoc; assumption.
Qed.

Ltac body_cases cb cust :=
  unfold initialize_body, add_customization;
  destruct cb as [u|]; [destruct (String.eqb u "")|];
  destruct cust as [[|kv c]|]; cbv beta iota;
  try (destruct (dict_get (kv :: c) "title"),
                (dict_get (kv :: c) "description"),
                (dict_get (kv :: c) "logo"));
  rewrite ?dict_get_set, ?key_eqb_str.

(** The form body holds, under every key, what [body_field] reads off the
    arguments. *)
Lemma initialize_body_lookup email amount fn ln tx cur cb cust (k : string) :
  dict_get (initialize_body email amount fn ln tx cur cb cust) k
  = body_field email amount fn ln tx cur cb cust k.
Proof.
  unfold body_field. rewrite !(String.eqb_sym k).
  destruct (String.eqb "first_name" k) eqn:E1;
    [apply String.eqb_eq in E1; subst k; body_cases cb cust; reflexivity|].
  destruct (String.eqb "last_name" k) eqn:E2;
    [apply String.eqb_eq in E2; subst k; body_cases cb cust; reflexivity|].
  destruct (String.eqb "tx_ref" k) eqn:E3;
    [apply String.eqb_eq in E3; subst k; body_cases cb cust; reflexivity|].
  destruct (String.eqb "currency" k) eqn:E4;
    [apply String.eqb_eq in E4; subst k; body_cases cb cust; reflexivity|].
  destruct (String.eqb "amount" k) eqn:E5;
    [apply String.eqb_eq in E5; subst k; body_cases cb cust; reflexivity|].
  destruct (String.eqb "email" k) eqn:E6;
    [apply String.eqb_eq in E6; subst k; body_cases cb cust; reflexivity|].
  destruct (String.eqb "callback_url" k) eqn:E7;
    [apply String.eqb_eq in E7; subst k; body_cases cb cust; reflexivity|].
  destruct (String.eqb "customization[title]" k) eqn:E8;
    [apply String.eqb_eq in E8; subst k; body_cases cb cust; reflexivity|].
  destruct (String.eqb "customization[description]" k) eqn:E9;
    [apply String.eqb_eq in E9; subst k; body_cases cb cust; reflexivity|].
  destruct (String.eqb "customization[logo]" k) eqn:E10;
    [apply String.eqb_eq in E10; subst k; body_cases cb cust; reflexivity|].
  body_cases cb cust; cbn [dict_get]; rewrite ?key_eqb_str;
    rewrite ?E1, ?E2, ?E3, ?E4, ?E5, ?E6, ?E7, ?E8, ?E9, ?E10; reflexivity.
Qed.

Lemma initialize_body_keys_distinct email amount fn ln tx cur cb cust :
  keys_distinct (map fst (initialize_body email amount fn ln tx cur cb cust))
  = true.
Proof.
  unfold initialize_body, add_customization.
  destruct cb as [u|]; [destruct (String.eqb u "")|];
    destruct cust as [[|kv c]|]; cbv beta iota;
    try (destruct (dict_get (kv :: c) "title"),
                  (dict_get (kv :: c) "description"),
                  (dict_get (kv :: c) "logo"));
    repeat apply keys_distinct_set; reflexivity.
Qed.

(** X20.  The body of the request [initialize] makes is a dict with
    distinct keys that holds exactly this: the six fields [first_name],
    [last_name], [tx_ref], [currency], [amount] and [email] with the
    arguments as given (the amount as it came, text or number);
    [callback_url] when one was given and is not the empty text; and
    [customization[title]], [customization[description]] and
    [customization[logo]] for those of the three keys the customization dict
    has.  Any other key of the customization dict is left out. *)
Theorem initialize_body_fields {py : Interpreter} :
  forall (server : list request -> request -> result pyval)
         (email : string) (amount : pyval)
         (first_name last_name tx_ref currency : string)
         (callback_url : option string) (customization : option dict)
         (o : dict) (w : world),
    validate_amount amount = Ok tt ->
    re_match email_pattern email = true ->
    exists (rq : request) (body : dict),
      sent (snd (initialize server email amount first_name last_name tx_ref
                   currency callback_url customization (PyDict o) w))
      = (sent w ++ [rq])%list /\
      req_data rq = PyDict body /\
      keys_distinct (map fst body) = true /\
      forall k : string,
        dict_get body k
        = body_field email amount first_name last_name tx_ref currency
            callback_url customization k.
Proof.
  intros server email amount fn ln tx cur cb cust o w Ha He.
  rewrite initialize_checked by assumption.
  rewrite construct_request_state.
  rewrite send_request_dicts by reflexivity.
  eexists. eexists. split; [reflexivity|]. split; [reflexivity|]. split.
  - apply initialize_body_keys_distinct.
  - apply initialize_body_lookup.
Qed.

Lemma initialize_body_fields_witness :
  exists (rq : request) (body : dict),
    sent (snd (initialize (constant_server sample_answer) "a@b.com"
                 (PyStr "12.5") "A" "B" "tx1" default_currency (Some "")
                 (Some [(PyStr "title", PyStr "T"); (PyStr "color", PyStr "red")])
                 (PyDict []) (empty_world sample_client)))
    = [rq] /\
    req_data rq = PyDict body /\
    dict_get body "amount" = Some (PyStr "12.5") /\
    dict_get body "customization[title]" = Some (PyStr "T") /\
    dict_get body "customization[color]" = None /\
    dict_get body "color" = None /\
    dict_get body "callback_url" = None.
Proof.
  assert (Ha : validate_amount (PyStr "12.5") = Ok tt)
    by (vm_compute; reflexivity).
  destruct (initialize_body_fields (constant_server sample_answer) "a@b.com"
              (PyStr "12.5") "A" "B" "tx1" default_currency (Some "")
              (Some [(PyStr "title", PyStr "T"); (PyStr "color", PyStr "red")])
              [] (empty_world sample_client) Ha eq_refl)
    as (rq & body & Hs & Hd & _ & Hk).
  exists rq, body. split; [exact Hs|]. split; [exact Hd|].
  rewrite !Hk. split; [reflexivity|]. split; [reflexivity|].
  split; [reflexivity|]. split; reflexivity.
Defined.

(* ================================================================== *)
(** ** A failed merge *)

(** X21.  A call can raise and still change the client.  When [headers] is
    a list whose first element is a pair and whose second cannot be read as
    one, [send_request] raises the [TypeError] of the merge and sends
    nothing, but the first pair has been merged into the client's headers
    and stays there. *)
Theorem failed_merge_keeps_what_it_merged :
  forall (server : list request -> request -> result pyval)
         (url method : string) (d : dict) (k : string) (v bad : pyval)
         (rest : list pyval) (w : world),
    method = "post" \/ method = "put" ->
    py_iter bad = None ->
    send_request server url method (PyDict d) PyNone
      (PyList (PyList [PyStr k; v] :: bad :: rest)) w
    = (Err (TypeError
              "cannot convert dictionary update sequence element #1 to a sequence"),
       {| client := with_headers (client w) (dict_set (headers (client w)) k v);
          sent := sent w |}).
Proof.
  intros server url method d k v bad rest w Hm Hb.
  apply allowed_methods_spec in Hm.
  rewrite send_request_guards_passed by (assumption || reflexivity).
  unfold bind, headers_update.
  cbn [dict_update dict_update_pairs py_iter]. rewrite Hb. reflexivity.
Qed.

Lemma failed_merge_keeps_what_it_merged_witness :
  dict_get
    (headers (client (snd
       (send_request (constant_server sample_answer) "u" "post" (PyDict [])
          PyNone (PyList [PyList [PyStr "X-Trace"; PyStr "1"]; PyInt 5])
          (empty_world sample_client)))))
    "X-Trace"
  = Some (PyStr "1") /\
  sent (snd
    (send_request (constant_server sample_answer) "u" "post" (PyDict [])
       PyNone (PyList [PyList [PyStr "X-Trace"; PyStr "1"]; PyInt 5])
       (empty_world sample_client)))
  = [].
Proof.
  rewrite (failed_merge_keeps_what_it_merged (constant_server sample_answer)
             "u" "post" [] "X-Trace" (PyStr "1") (PyInt 5) []
             (empty_world sample_client));
    [split; reflexivity | left; reflexivity | reflexivity].
Defined.

(* ================================================================== *)
(** ** Header names that are not texts *)

(** Merging a list of pairs whose keys can be hashed is merging the dict of
    the pairs. *)
Lemma dict_update_pair_lists (items : dict) :
  forall (d : dict) (i : Z),
    forallb (fun kv => hashable (fst kv)) items = true ->
    dict_update_pairs d (pair_lists items) i = (dict_merge d items, Ok tt).
Proof.
  unfold dict_merge.
  induction items as [|[k v] r IH]; simpl; intros d i H; [reflexivity|].
  apply andb_true_iff in H. destruct H as [Hk Hr].
  rewrite Hk. apply IH. exact Hr.
Qed.

(** X22.  The names of extra headers need not be texts.  When [headers] is
    a list of pairs whose keys can all be hashed, be they texts, numbers,
    booleans, [None] or objects, [send_request] merges every pair into the
    client's headers, as it would the dict of the pairs, and makes the
    request with the merged headers.  A first pair whose key cannot be
    hashed, a list or a dict, ends the call in the [TypeError] of the merge
    with the state unchanged, and nothing is sent. *)
Theorem header_names_of_any_hashable_type {py : Interpreter} :
  forall (server : list request -> request -> result pyval)
         (url method : string) (d : dict) (w : world),
    method = "post" \/ method = "put" ->
    (forall items : dict,
        forallb (fun kv => hashable (fst kv)) items = true ->
        let h := dict_merge (headers (client w)) items in
        let rq := {| req_method := method; req_url := url;
                     req_data := PyDict d; req_headers := h |} in
        send_request server url method (PyDict d) PyNone
          (PyList (pair_lists items)) w
        = (server (sent w) rq,
           {| client := with_headers (client w) h;
              sent := (sent w ++ [rq])%list |})) /\
    (forall (k v : pyval) (rest : list pyval),
        hashable k = false ->
        send_request server url method (PyDict d) PyNone
          (PyList (PyList [k; v] :: rest)) w
        = (Err (TypeError ("unhashable type: '" ++ type_name k ++ "'")), w)).
Proof.
  intros server url method d w Hm.
  apply allowed_methods_spec in Hm. split.
  - intros items Hh h rq.
    rewrite send_request_guards_passed by (assumption || reflexivity).
    unfold bind, headers_update. cbn [dict_update].
    rewrite (dict_update_pair_lists items _ 0 Hh). reflexivity.
  - intros k v rest Hk.
    rewrite send_request_guards_passed by (assumption || reflexivity).
    unfold bind, headers_update.
    cbn [dict_update dict_update_pairs py_iter]. rewrite Hk.
    rewrite with_headers_same, world_eta. reflexivity.
Qed.

Lemma header_names_of_any_hashable_type_witness :
  headers (client (snd
    (send_request (constant_server sample_answer) "u" "post" (PyDict [])
       PyNone
       (PyList [PyList [PyInt 1; PyStr "a"]; PyList [PyNone; PyStr "n"];
                PyList [PyBool true; PyStr "b"];
                PyList [PyResponse []; PyStr "o"]])
       (empty_world sample_client))))
  = [(PyStr "Authorization", PyStr "Bearer sk_test_x");
     (PyInt 1, PyStr "b"); (PyNone, PyStr "n"); (PyResponse [], PyStr "o")] /\
  List.length
    (sent (snd
       (send_request (constant_server sample_answer) "u" "post" (PyDict [])
          PyNone
          (PyList [PyList [PyInt 1; PyStr "a"]; PyList [PyNone; PyStr "n"];
                   PyList [PyBool true; PyStr "b"];
                   PyList [PyResponse []; PyStr "o"]])
          (empty_world sample_client))))
  = 1%nat /\
  send_request (constant_server sample_answer) "u" "post" (PyDict []) PyNone
    (PyList [PyList [PyList []; PyStr "a"]]) (empty_world sample_client)
  = (Err (TypeError "unhashable type: 'list'"), empty_world sample_client).
Proof.
  destruct (header_names_of_any_hashable_type (py := cpython_defaults)
              (constant_server sample_answer) "u" "post" []
              (empty_world sample_client) (or_introl eq_refl))
    as [Hmerge Hstop].
  pose proof (Hmerge [(PyInt 1, PyStr "a"); (PyNone, PyStr "n");
                      (PyBool true, PyStr "b"); (PyResponse [], PyStr "o")]
                eq_refl) as H.
  cbv zeta in H. unfold pair_lists in H. cbn [map fst snd] in H.
  rewrite H. split; [reflexivity|]. split; [reflexivity|].
  exact (Hstop (PyList []) (PyStr "a") [] eq_refl).
Defined.

(* ================================================================== *)
(** ** [convert_response] at the interpreter's limits *)

Section Limits.

Context {py : Interpreter}.


End Limits.


